(** * The authentication provider of [src/lib/auth/AuthProvider.tsx]

    A shallow embedding of the refresh-capable [AuthProvider] component and
    the properties of its session state machine.

    Reading guide.  The component keeps two pieces of React state, [tokens]
    and [currentUser], one ref, [refreshTimerRef], and talks to three
    collaborators: the API fetcher, the host timers ([setTimeout] /
    [clearTimeout]) and the [onAuthChange] prop.  Every callback of the
    component is an [async] function; between two [await]s it runs without
    interruption.  The embedding therefore has one Rocq function per
    synchronous segment of each callback, and a [step] function that runs a
    segment and then lets React commit the queued state updates and run the
    effects whose dependencies changed.

    Conventions.
    - A value of TypeScript type [T | null | undefined] is a [Nullable T].
    - The variables a callback closes over ([currentUser] in [login] and
      [logout], [tokens] in [refreshToken] and [scheduleTokenRefresh]) are
      explicit arguments of the embedded function.
    - [setTokens] and [setCurrentUser] queue an update; the queue is applied
      by [commit] when the running segment ends (updates made in one segment
      are committed together).
    - Times are integers in milliseconds, as [Date.now()] and
      [Date.prototype.getTime()] return them; [parseDate s = None] stands
      for the [NaN] of an invalid date.
    - [console.error] calls are not modelled: they touch no state.

    Assumptions on the collaborators, none of which is under [src/]: the
    function [useApiFetcher] returns and the [onAuthChange] prop keep their
    identity across renders (so the scheduling effect depends on [tokens]
    alone), [onAuthChange] does not throw, and the props do not change
    after the mount.  The clean-up effect that clears the timer when the
    component unmounts is outside the model: no event follows an unmount. *)

From Stdlib Require Import ZArith List String Ascii Bool Lia.
Import ListNotations.

Local Open Scope string_scope.
Local Open Scope list_scope.
Local Open Scope Z_scope.

(** ** Data model *)

Record TokensData : Type := mkTokens {
  access : string;
  accessExpiresAt : string;
  refresh : string;
  refreshExpiresAt : string
}.

Record UserData : Type := mkUser {
  userId : string;
  name : string;
  email : string
}.

Record Credentials : Type := mkCredentials {
  cred_email : string;
  cred_password : string
}.

(** [T | null | undefined] *)
Inductive Nullable (A : Type) : Type :=
| Undefined
| Null
| Val (a : A).

Arguments Undefined {A}.
Arguments Null {A}.
Arguments Val {A} a.

(** JavaScript truthiness of a nullable object. *)
Definition truthy {A : Type} (v : Nullable A) : bool :=
  match v with
  | Val _ => true
  | _ => false
  end.

(** [v !== null] and [v === null] *)
Definition is_null {A : Type} (v : Nullable A) : bool :=
  match v with
  | Null => true
  | _ => false
  end.

(** What the fetcher gives back: [{ ok: true, data }], [{ ok: false, data:
    { message } }], or a thrown error. *)
Inductive Fetched (A : Type) : Type :=
| Ok (data : A)
| NotOk (message : string)
| Threw (error : string).

Arguments Ok {A} data.
Arguments NotOk {A} message.
Arguments Threw {A} error.

(** Body of a successful [POST /v3/auth/login] and [POST /v3/auth/refresh]. *)
Record AuthPayload : Type := mkAuthPayload {
  accessToken : string;
  accessTokenExpiresAt : string;
  refreshToken_ : string;
  refreshTokenExpiresAt : string
}.

(** Body of a successful [GET /v1/users/me]; the e-mail may be missing. *)
Record UserPayload : Type := mkUserPayload {
  payload_userId : string;
  displayName : string;
  payload_email : option string
}.

(** The calls made to the backend. *)
Inductive Request : Type :=
| PostLogin (c : Credentials)
| PostRefresh (refreshToken : string)
| GetMe (accessToken : string).

(** How the promise returned to a caller settles. *)
Inductive Outcome : Type :=
| Pending
| Fulfilled
| Rejected (message : string).

(** The [initialTokens] prop: absent ([undefined] or [null]), a token pair,
    or a promise of one. *)
Inductive Settles : Type :=
| ResolvesTo (v : option TokensData)
| Rejects (error : string).

Inductive InitialTokens : Type :=
| NotProvided
| Provided (t : TokensData)
| Deferred (p : Settles).

Record Props : Type := mkProps {
  initialTokens : InitialTokens;
  (** whether an [onAuthChange] callback was passed *)
  onAuthChange : bool
}.

(** An [async] call suspended at an [await]. *)
Inductive Task : Type :=
| InitAwaitTokens                    (* await Promise.resolve(initialTokens) *)
| InitAwaitUser (t : TokensData)     (* await loadUserInfo(resolvedTokens.access) *)
| LoginAwaitResponse                 (* await fetcher('POST /v3/auth/login') *)
| LoginAwaitUser (t : TokensData)    (* await loadUserInfo(newTokens.access) *)
| RefreshAwaitResponse.              (* await fetcher('POST /v3/auth/refresh') *)

(** A timeout pending in the host; [timerTokens] is the [tokens] value the
    [refreshToken] callback of the timer closes over. *)
Record Timer : Type := mkTimer {
  timerId : nat;
  armedAt : Z;
  delay : Z;
  timerTokens : Nullable TokensData
}.

Record State : Type := mkState {
  (** React state, as the context value exposes it *)
  tokens : Nullable TokensData;
  currentUser : Nullable UserData;
  (** updates queued by the running segment *)
  queuedTokens : option (Nullable TokensData);
  queuedUser : option (Nullable UserData);
  (** [refreshTimerRef.current] *)
  refreshTimerRef : option nat;
  (** host timers *)
  timers : list Timer;
  nextTimerId : nat;
  (** suspended calls *)
  inflight : list Task;
  (** history: arguments of the [onAuthChange] calls, backend calls *)
  authChanges : list (option TokensData);
  requests : list Request;
  mounted : bool
}.

(** The first render: both values are [undefined]. *)
Definition initialState : State :=
  mkState Undefined Undefined None None None [] 1 [] [] [] false.

(** ** Field updates *)

Definition with_queuedTokens (q : option (Nullable TokensData)) (s : State) : State :=
  mkState (tokens s) (currentUser s) q (queuedUser s) (refreshTimerRef s)
          (timers s) (nextTimerId s) (inflight s) (authChanges s) (requests s)
          (mounted s).

Definition with_queuedUser (q : option (Nullable UserData)) (s : State) : State :=
  mkState (tokens s) (currentUser s) (queuedTokens s) q (refreshTimerRef s)
          (timers s) (nextTimerId s) (inflight s) (authChanges s) (requests s)
          (mounted s).

Definition with_exposed (t : Nullable TokensData) (u : Nullable UserData)
    (s : State) : State :=
  mkState t u None None (refreshTimerRef s)
          (timers s) (nextTimerId s) (inflight s) (authChanges s) (requests s)
          (mounted s).

Definition with_refreshTimerRef (r : option nat) (s : State) : State :=
  mkState (tokens s) (currentUser s) (queuedTokens s) (queuedUser s) r
          (timers s) (nextTimerId s) (inflight s) (authChanges s) (requests s)
          (mounted s).

Definition with_timers (l : list Timer) (n : nat) (s : State) : State :=
  mkState (tokens s) (currentUser s) (queuedTokens s) (queuedUser s)
          (refreshTimerRef s) l n (inflight s) (authChanges s) (requests s)
          (mounted s).

Definition with_inflight (l : list Task) (s : State) : State :=
  mkState (tokens s) (currentUser s) (queuedTokens s) (queuedUser s)
          (refreshTimerRef s) (timers s) (nextTimerId s) l (authChanges s)
          (requests s) (mounted s).

Definition with_authChanges (l : list (option TokensData)) (s : State) : State :=
  mkState (tokens s) (currentUser s) (queuedTokens s) (queuedUser s)
          (refreshTimerRef s) (timers s) (nextTimerId s) (inflight s) l
          (requests s) (mounted s).

Definition with_requests (l : list Request) (s : State) : State :=
  mkState (tokens s) (currentUser s) (queuedTokens s) (queuedUser s)
          (refreshTimerRef s) (timers s) (nextTimerId s) (inflight s)
          (authChanges s) l (mounted s).

Definition with_mounted (b : bool) (s : State) : State :=
  mkState (tokens s) (currentUser s) (queuedTokens s) (queuedUser s)
          (refreshTimerRef s) (timers s) (nextTimerId s) (inflight s)
          (authChanges s) (requests s) b.

(** ** Collaborators *)

(** [fetcher(...)]: the request goes out and the caller suspends. *)
Definition fetcher (r : Request) (k : Task) (s : State) : State :=
  with_inflight (inflight s ++ [k]) (with_requests (requests s ++ [r]) s).

(** [await] of something that is not a backend call. *)
Definition suspend (k : Task) (s : State) : State :=
  with_inflight (inflight s ++ [k]) s.

(** [setTimeout(callback, ms)]: returns the new timer's id. *)
Definition setTimeout (now ms : Z) (closure : Nullable TokensData) (s : State)
    : State * nat :=
  let id := nextTimerId s in
  (with_timers (timers s ++ [mkTimer id now ms closure]) (S id) s, id).

(** [clearTimeout(id)]: no effect when no such timer is pending. *)
Definition clearTimeout (id : nat) (s : State) : State :=
  with_timers (filter (fun t => negb (Nat.eqb (timerId t) id)) (timers s))
              (nextTimerId s) s.

(** [if (onAuthChange) { onAuthChange(v) }] *)
Definition notifyAuthChange (p : Props) (v : option TokensData) (s : State) : State :=
  if onAuthChange p then with_authChanges (authChanges s ++ [v]) s else s.

(** ** The component *)

Definition REFRESH_THRESHOLD_MS : Z := 5 * 60 * 1000.

Definition MAX_TIMEOUT : Z := 2147483647.

Definition setTokens (v : Nullable TokensData) (s : State) : State :=
  with_queuedTokens (Some v) s.

Definition setCurrentUser (v : Nullable UserData) (s : State) : State :=
  with_queuedUser (Some v) s.

Definition clearAuthState (s : State) : State :=
  setCurrentUser Null (setTokens Null s).

Definition tokensOfPayload (d : AuthPayload) : TokensData :=
  mkTokens (accessToken d) (accessTokenExpiresAt d)
           (refreshToken_ d) (refreshTokenExpiresAt d).

(** [tokens?.refresh], when truthy *)
Definition heldRefreshToken (tok : Nullable TokensData) : option string :=
  match tok with
  | Val t => if String.eqb (refresh t) "" then None else Some (refresh t)
  | _ => None
  end.

(** [refreshToken], up to its [await]: the boolean result [false] is
    returned at once when no refresh token is held. *)
Definition refreshToken (tok : Nullable TokensData) (s : State)
    : State * option bool :=
  match heldRefreshToken tok with
  | None => (s, Some false)
  | Some r => (fetcher (PostRefresh r) RefreshAwaitResponse s, None)
  end.

(** [refreshToken], from the response on. *)
Definition refreshToken_resume (p : Props) (r : Fetched AuthPayload) (s : State)
    : State * bool :=
  match r with
  | Ok d =>
      let newTokens := tokensOfPayload d in
      (notifyAuthChange p (Some newTokens) (setTokens (Val newTokens) s), true)
  | NotOk _ => (notifyAuthChange p None (clearAuthState s), false)
  | Threw _ => (notifyAuthChange p None (clearAuthState s), false)
  end.

Section Scheduler.

(** [new Date(s).getTime()]; [None] is [NaN]. *)
Variable parseDate : string -> option Z.

Definition cancelRefreshTimer (s : State) : State :=
  match refreshTimerRef s with
  | Some id => with_refreshTimerRef None (clearTimeout id s)
  | None => s
  end.

Definition scheduleTokenRefresh (tok : Nullable TokensData) (now : Z) (s : State)
    : State :=
  let s := cancelRefreshTimer s in
  match tok with
  | Val t =>
      if String.eqb (accessExpiresAt t) "" then s
      else
        match parseDate (accessExpiresAt t) with
        | None => s
        | Some expiresAt =>
            let timeUntilExpiry := expiresAt - now in
            if timeUntilExpiry <=? 0 then fst (refreshToken tok s)
            else if timeUntilExpiry <? MAX_TIMEOUT then
              let refreshTime := Z.max 0 (timeUntilExpiry - REFRESH_THRESHOLD_MS) in
              let (s', id) := setTimeout now refreshTime tok s in
              with_refreshTimerRef (Some id) s'
            else s
        end
  | _ => s
  end.

(** React's bail-out test [Object.is(old, new)] on the [tokens] state.
    Every object handed to [setTokens] is a fresh literal or the
    [initialTokens] prop, which is set once: two objects never coincide. *)
Definition sameTokens (old new : Nullable TokensData) : bool :=
  match old, new with
  | Undefined, Undefined => true
  | Null, Null => true
  | _, _ => false
  end.

(** End of a segment: the queued updates are applied together, the
    component renders, and the effect
    [useEffect(() => { if (tokens) scheduleTokenRefresh() }, [tokens, scheduleTokenRefresh])]
    runs when [tokens] changed. *)
Definition commit (now : Z) (s : State) : State :=
  let tokens' := match queuedTokens s with Some v => v | None => tokens s end in
  let user' := match queuedUser s with Some v => v | None => currentUser s end in
  let changed :=
    match queuedTokens s with
    | Some v => negb (sameTokens (tokens s) v)
    | None => false
    end in
  let s' := with_exposed tokens' user' s in
  if changed && truthy tokens' then scheduleTokenRefresh tokens' now s' else s'.

End Scheduler.

(** [loadUserInfo], from the response on: the value its [await] produces.
    A response that is not ok and a thrown error both give [null]. *)
Definition loadUserInfo_result (r : Fetched UserPayload) : option UserData :=
  match r with
  | Ok d =>
      Some (mkUser (payload_userId d) (displayName d)
                   (match payload_email d with Some e => e | None => "" end))
  | NotOk _ => None
  | Threw _ => None
  end.

(** [loadUserInfo(accessToken)], up to its [await]: the request is sent and
    the caller, which awaits the result, is suspended as [k]. *)
Definition loadUserInfo (accessToken : string) (k : Task) (s : State) : State :=
  fetcher (GetMe accessToken) k s.

(** *** [loadInitialTokens] *)

Definition loadInitialTokens (p : Props) (s : State) : State :=
  match initialTokens p with
  | NotProvided => clearAuthState s
  | _ => suspend InitAwaitTokens s
  end.

(** What [await Promise.resolve(initialTokens)] produces. *)
Definition resolvedInitialTokens (p : Props) : Settles :=
  match initialTokens p with
  | NotProvided => ResolvesTo None
  | Provided t => ResolvesTo (Some t)
  | Deferred r => r
  end.

Definition loadInitialTokens_resolved (p : Props) (s : State) : State :=
  match resolvedInitialTokens p with
  | ResolvesTo None => clearAuthState s
  | ResolvesTo (Some resolvedTokens) =>
      loadUserInfo (access resolvedTokens) (InitAwaitUser resolvedTokens)
                   (setTokens (Val resolvedTokens) s)
  | Rejects _ => clearAuthState s
  end.

Definition loadInitialTokens_user (r : Fetched UserPayload) (s : State) : State :=
  match loadUserInfo_result r with
  | None => clearAuthState s
  | Some userData => setCurrentUser (Val userData) s
  end.

(** *** [login] *)

(** [cu] is the [currentUser] the callback closes over. *)
Definition login (cu : Nullable UserData) (c : Credentials) (s : State)
    : State * Outcome :=
  if negb (is_null cu) then
    (* thrown inside the [try]: the [catch] clears the state and rethrows *)
    (clearAuthState s, Rejected "User is already logged in")
  else (fetcher (PostLogin c) LoginAwaitResponse s, Pending).

Definition login_response (r : Fetched AuthPayload) (s : State) : State * Outcome :=
  match r with
  | Ok d =>
      let newTokens := tokensOfPayload d in
      (loadUserInfo (access newTokens) (LoginAwaitUser newTokens) s, Pending)
  | NotOk message => (clearAuthState s, Rejected message)
  | Threw error => (clearAuthState s, Rejected error)
  end.

Definition login_user (p : Props) (newTokens : TokensData) (r : Fetched UserPayload)
    (s : State) : State * Outcome :=
  match loadUserInfo_result r with
  | None => (clearAuthState s, Rejected "Error fetching user info")
  | Some userData =>
      (notifyAuthChange p (Some newTokens)
         (setCurrentUser (Val userData) (setTokens (Val newTokens) s)),
       Fulfilled)
  end.

(** *** [logout] *)

(** [cu] is the [currentUser] the callback closes over.  The trailing
    [await Promise.resolve()] changes nothing: the promise is reported as
    fulfilled. *)
Definition logout (p : Props) (cu : Nullable UserData) (s : State) : State * Outcome :=
  if is_null cu then (s, Rejected "No user is logged in")
  else (notifyAuthChange p None (clearAuthState s), Fulfilled).

(** ** The transition system *)

Inductive Event : Type :=
| Mount                                        (* the mount effects run *)
| CallLogin (c : Credentials)                  (* a consumer calls auth.login *)
| CallLogout                                   (* a consumer calls auth.logout *)
| InitialTokensResolve (n : nat)               (* the initialTokens promise settles *)
| LoginResponse (n : nat) (r : Fetched AuthPayload)
| UserResponse (n : nat) (r : Fetched UserPayload)
| RefreshResponse (n : nat) (r : Fetched AuthPayload)
| TimerFires (id : nat).

(** Remove the [n]-th suspended call. *)
Definition resumeTask (n : nat) (s : State) : option (Task * State) :=
  match nth_error (inflight s) n with
  | Some k => Some (k, with_inflight (firstn n (inflight s) ++ skipn (S n) (inflight s)) s)
  | None => None
  end.

Definition findTimer (id : nat) (s : State) : option Timer :=
  find (fun t => Nat.eqb (timerId t) id) (timers s).

Section Provider.

Variable parseDate : string -> option Z.
Variable p : Props.

(** A consumer calls the [login] of the latest render. *)
Definition callLogin (now : Z) (c : Credentials) (s : State) : State * Outcome :=
  let (s', o) := login (currentUser s) c s in (commit parseDate now s', o).

(** A consumer calls the [logout] of the latest render. *)
Definition callLogout (now : Z) (s : State) : State * Outcome :=
  let (s', o) := logout p (currentUser s) s in (commit parseDate now s', o).


(** The refresh call started by a timer or by the scheduler resumes. *)
Definition refreshResponse (now : Z) (r : Fetched AuthPayload) (s : State)
    : State * bool :=
  let (s', b) := refreshToken_resume p r s in (commit parseDate now s', b).

(** One step: a segment of one callback, then React's commit. *)
Definition step (now : Z) (e : Event) (s : State) : option State :=
  match e with
  | Mount =>
      if mounted s then None
      else Some (commit parseDate now (loadInitialTokens p (with_mounted true s)))
  | CallLogin c =>
      if mounted s then Some (fst (callLogin now c s)) else None
  | CallLogout =>
      if mounted s then Some (fst (callLogout now s)) else None
  | InitialTokensResolve n =>
      match resumeTask n s with
      | Some (InitAwaitTokens, s') =>
          Some (commit parseDate now (loadInitialTokens_resolved p s'))
      | _ => None
      end
  | LoginResponse n r =>
      match resumeTask n s with
      | Some (LoginAwaitResponse, s') =>
          Some (commit parseDate now (fst (login_response r s')))
      | _ => None
      end
  | UserResponse n r =>
      match resumeTask n s with
      | Some (InitAwaitUser _, s') =>
          Some (commit parseDate now (loadInitialTokens_user r s'))
      | Some (LoginAwaitUser newTokens, s') =>
          Some (commit parseDate now (fst (login_user p newTokens r s')))
      | _ => None
      end
  | RefreshResponse n r =>
      match resumeTask n s with
      | Some (RefreshAwaitResponse, s') => Some (fst (refreshResponse now r s'))
      | _ => None
      end
  | TimerFires id =>
      match findTimer id s with
      | Some t =>
          if armedAt t + delay t <=? now then
            Some (commit parseDate now
                    (fst (refreshToken (timerTokens t) (clearTimeout id s))))
          else None
      | None => None
      end
  end.

(** A run: events with the time at which each happens. *)
Fixpoint run (es : list (Z * Event)) (s : State) : option State :=
  match es with
  | [] => Some s
  | (now, e) :: es' =>
      match step now e s with
      | Some s' => run es' s'
      | None => None
      end
  end.

(** The states a consumer of the context can observe. *)
Inductive reachable : State -> Prop :=
| reachable_first_render : reachable initialState
| reachable_step (s s' : State) (now : Z) (e : Event) :
    reachable s -> step now e s = Some s' -> reachable s'.

End Provider.

(** ** Shapes of the exposed state *)

Definition Unresolved (s : State) : Prop :=
  tokens s = Undefined /\ currentUser s = Undefined.

Definition Authenticated (s : State) : Prop :=
  (exists t, tokens s = Val t) /\ (exists u, currentUser s = Val u).

Definition Unauthenticated (s : State) : Prop :=
  tokens s = Null /\ currentUser s = Null.

(** The pair is one of the three shapes the specification allows. *)
Definition consistent (s : State) : Prop :=
  Unresolved s \/ Authenticated s \/ Unauthenticated s.

(** ** A concrete host and concrete data, for closed examples *)

Module Sample.

(** A date parser that knows three instants. *)
Definition parseDate (d : string) : option Z :=
  if String.eqb d "2124-01-01T00:00Z" then Some 4859740800000
  else if String.eqb d "1970-01-01T00:10Z" then Some 600000
  else if String.eqb d "1970-01-01T00:02Z" then Some 120000
  else None.

Definition alice : UserData :=
  mkUser "c0ed36c0" "Alice" "alice@playtomic.io".

Definition alicePayload : UserPayload :=
  mkUserPayload "c0ed36c0" "Alice" (Some "alice@playtomic.io").

Definition credentials : Credentials :=
  mkCredentials "alice@playtomic.io" "MySuperSecurePassword".

Definition farTokens : TokensData :=
  mkTokens "access-1" "2124-01-01T00:00Z" "refresh-1" "2124-01-01T00:00Z".

Definition soonTokens : TokensData :=
  mkTokens "access-2" "1970-01-01T00:10Z" "refresh-2" "2124-01-01T00:00Z".

Definition nearTokens : TokensData :=
  mkTokens "access-3" "1970-01-01T00:02Z" "refresh-3" "2124-01-01T00:00Z".

Definition badDateTokens : TokensData :=
  mkTokens "access-4" "not a date" "refresh-4" "2124-01-01T00:00Z".

Definition noRefreshTokens : TokensData :=
  mkTokens "access-5" "1970-01-01T00:10Z" "" "".

Definition payloadOf (t : TokensData) : AuthPayload :=
  mkAuthPayload (access t) (accessExpiresAt t) (refresh t) (refreshExpiresAt t).

Definition observed : Props := mkProps NotProvided true.

Definition observedWith (t : TokensData) : Props := mkProps (Provided t) true.

(** Logged in as Alice with token pair [t], nothing pending. *)
Definition loggedIn (t : TokensData) : State :=
  mkState (Val t) (Val alice) None None None [] 1 [] [] [] true.

Definition loggedOut : State :=
  mkState Null Null None None None [] 1 [] [] [] true.

(** Alice's session restored from [soonTokens]: the refresh timer is armed. *)
Definition armed : State :=
  Eval vm_compute in
    match run parseDate (observedWith soonTokens)
            [(0, Mount); (0, InitialTokensResolve 0);
             (5, UserResponse 0 (Ok alicePayload))] initialState with
    | Some s => s
    | None => initialState
    end.

(** Alice logged in with a pair that had already expired: the scheduler
    has called [refreshToken] and the request is in flight. *)
Definition refreshing : State :=
  Eval vm_compute in
    match run parseDate observed
            [(0, Mount); (1, CallLogin credentials);
             (2, LoginResponse 0 (Ok (payloadOf nearTokens)));
             (200000, UserResponse 0 (Ok alicePayload))] initialState with
    | Some s => s
    | None => initialState
    end.

End Sample.

(** The refresh timers are tracked by the ref: no timer is pending, or one
    is and [refreshTimerRef.current] holds its id. *)
Definition timerInv (s : State) : Prop :=
  timers s = [] \/
  exists t, timers s = [t] /\ refreshTimerRef s = Some (timerId t).

(** A segment that leaves the host timers and the ref alone. *)
Definition sameTimers (s s' : State) : Prop :=
  timers s' = timers s /\ refreshTimerRef s' = refreshTimerRef s.

(** No segment is running: the update queue is empty. *)
Definition quiescent (s : State) : Prop :=
  queuedTokens s = None /\ queuedUser s = None.

(** The [onAuthChange] calls a transition is expected to make: one call
    with the new pair for a login or refresh that succeeds, one call with
    [null] for a logout that passes its guard and for a refresh that fails,
    none otherwise. *)
Definition expectedAuthChanges (e : Event) (s : State) : list (option TokensData) :=
  match e with
  | CallLogout => if is_null (currentUser s) then [] else [None]
  | UserResponse n r =>
      match nth_error (inflight s) n, loadUserInfo_result r with
      | Some (LoginAwaitUser newTokens), Some _ => [Some newTokens]
      | _, _ => []
      end
  | RefreshResponse n r =>
      match nth_error (inflight s) n, r with
      | Some RefreshAwaitResponse, Ok d => [Some (tokensOfPayload d)]
      | Some RefreshAwaitResponse, _ => [None]
      | _, _ => []
      end
  | _ => []
  end.

(** The three ways [scheduleTokenRefresh] ends for a token pair. *)
Inductive Scheduling : Type :=
| NoDeadline                (* nothing armed, nothing started *)
| RefreshNow                (* [refreshToken()] is called inline *)
| RefreshIn (ms : Z).       (* a timer is armed *)

Definition scheduling (parseDate : string -> option Z) (t : TokensData) (now : Z)
    : Scheduling :=
  if String.eqb (accessExpiresAt t) "" then NoDeadline
  else
    match parseDate (accessExpiresAt t) with
    | None => NoDeadline
    | Some expiresAt =>
        if expiresAt - now <=? 0 then RefreshNow
        else if expiresAt - now <? MAX_TIMEOUT then
          RefreshIn (Z.max 0 (expiresAt - now - REFRESH_THRESHOLD_MS))
        else NoDeadline
    end.

(** ** Teardown *)

(** The clean-up of the mount effect,
    [if (refreshTimerRef.current !== null) window.clearTimeout(refreshTimerRef.current)]. *)
Definition unmountCleanup (s : State) : State :=
  match refreshTimerRef s with
  | Some id => clearTimeout id s
  | None => s
  end.

(** ** Vocabulary for the invariants *)

(** What the synchronous part of a step may have done to [s] when React
    commits: timers can only have gone, the exposed pair and the ref are
    untouched, nothing queues [undefined], and a refresh request that was
    added carries a token. *)
Definition segmentOf (s s1 : State) : Prop :=
  incl (timers s1) (timers s) /\
  refreshTimerRef s1 = refreshTimerRef s /\
  tokens s1 = tokens s /\
  currentUser s1 = currentUser s /\
  queuedTokens s1 <> Some Undefined /\
  queuedUser s1 <> Some Undefined /\
  (forall r, In (PostRefresh r) (requests s1) ->
             In (PostRefresh r) (requests s) \/ r <> "").

(** A timer armed for a pair [t] that expires at [expiresAt]: the delay
    fits the host's 32-bit limit, the timer is due at the refresh deadline
    (or at once when the deadline has passed) and before the expiry. *)
Definition timerSound (parseDate : string -> option Z) (tm : Timer) : Prop :=
  exists t expiresAt,
    timerTokens tm = Val t /\
    parseDate (accessExpiresAt t) = Some expiresAt /\
    0 <= delay tm < MAX_TIMEOUT /\
    armedAt tm + delay tm = Z.max (armedAt tm) (expiresAt - REFRESH_THRESHOLD_MS) /\
    armedAt tm + delay tm < expiresAt.

(** * The matches table ([Matches.tsx])

    The download of all matches: [fetchAllMatches] pages through
    [GET /v1/matches], [convertMatchesToCSV] renders the result.  The
    backend is a function from the page number to what the fetcher gives
    back for it; the loop asks for each page at most once. *)

Module Matches.

Record Player : Type := mkPlayer {
  playerId : string;
  displayName : string;
  playerEmail : option string;
  pictureURL : option string
}.

Record Team : Type := mkTeam {
  teamId : string;
  players : list Player
}.

Record Match : Type := mkMatch {
  matchId : string;
  venueId : string;
  courtId : string;
  sport : string;
  startDate : string;
  endDate : string;
  teams : list Team
}.

(** [const batchSize = 10 // API limit is 10 matches per request] *)
Definition batchSize : nat := 10.

(** How [fetchAllMatches] ends. *)
Inductive Fetch : Type :=
| Returned (matches : list Match)
| Thrown (message : string).

(** The [while (hasMoreMatches)] loop of [fetchAllMatches]; [None] when the
    loop has not ended after [fuel] requests. *)
Fixpoint fetchLoop (fuel : nat) (backend : nat -> Fetched (list Match))
    (currentPage : nat) (totalMatches : list Match) : option Fetch :=
  match fuel with
  | O => None
  | S fuel' =>
      match backend currentPage with
      | Ok fetchedMatches =>
          let totalMatches := totalMatches ++ fetchedMatches in
          if (List.length fetchedMatches <? batchSize)%nat
          then Some (Returned totalMatches)
          else fetchLoop fuel' backend (S currentPage) totalMatches
      | NotOk message => Some (Thrown message)
      | Threw error => Some (Thrown error)
      end
  end.

Definition fetchAllMatches (fuel : nat) (backend : nat -> Fetched (list Match))
    : option Fetch :=
  fetchLoop fuel backend 0 [].

(** [match.teams[i]?.players.map(p => p.displayName).join('; ') || ''] *)
Definition teamPlayers (i : nat) (m : Match) : string :=
  match nth_error (teams m) i with
  | Some team => String.concat "; " (map displayName (players team))
  | None => ""
  end.

(** The double quote and the line feed, as one-character texts. *)
Definition quote : string := String "034"%char EmptyString.

Definition newline : string := String "010"%char EmptyString.

Definition csvHeaders : string :=
  String.concat ","
    ["Match ID"; "Venue ID"; "Court ID"; "Sport"; "Start Date"; "End Date";
     "Team 1 Players"; "Team 2 Players"].

Definition csvRow (m : Match) : string :=
  String.concat ","
    [matchId m; venueId m; courtId m; sport m; startDate m; endDate m;
     (quote ++ teamPlayers 0 m ++ quote)%string;
     (quote ++ teamPlayers 1 m ++ quote)%string].

Definition convertMatchesToCSV (matches : list Match) : string :=
  String.concat newline (csvHeaders :: map csvRow matches).

(** A JavaScript string as the sequence of its UTF-16 code units, which
    is what [substring] counts. *)
Definition Utf16 : Type := list nat.

(** [s.substring(from, to)] for [from <= to]: the units from index [from]
    up to, not including, index [to], both clamped to the length. *)
Definition jsSubstring (from to : nat) (s : Utf16) : Utf16 :=
  firstn (to - from) (skipn from s).

(** The date and time cells of a table row:
    [startDate.substring(0, 10)], [startDate.substring(11, 16)]. *)
Definition dateCell (d : Utf16) : Utf16 := jsSubstring 0 10 d.

Definition timeCell (d : Utf16) : Utf16 := jsSubstring 11 16 d.

(** The code units of a text written in ASCII. *)
Definition unitsOfAscii (s : string) : Utf16 :=
  map nat_of_ascii (list_ascii_of_string s).

(** A backend that serves the list [all], [batchSize] matches a page. *)
Definition paged (all : list Match) (page : nat) : Fetched (list Match) :=
  Ok (firstn batchSize (skipn (page * batchSize) all)).

(** Number of line breaks in a text. *)
Fixpoint lineBreaks (s : string) : nat :=
  match s with
  | EmptyString => 0
  | String c s' =>
      ((if Ascii.eqb c "010"%char then 1 else 0) + lineBreaks s')%nat
  end.

(** The texts a match contributes to its row. *)
Definition rowTexts (m : Match) : list string :=
  [matchId m; venueId m; courtId m; sport m; startDate m; endDate m] ++
  flat_map (fun team => map displayName (players team)) (teams m).

End Matches.

(** ** More sample states and sample matches *)

Module Scenario.

(** Alice has called [login]; the request is in flight. *)
Definition loggingIn : State :=
  Eval vm_compute in
    match run Sample.parseDate Sample.observed
            [(0, Mount); (1, CallLogin Sample.credentials)] initialState with
    | Some s => s
    | None => initialState
    end.

(** [Sample.armed] after a logout: the timer is still pending. *)
Definition armedLoggedOut : State :=
  Eval vm_compute in
    match step Sample.parseDate (Sample.observedWith Sample.soonTokens) 6 CallLogout
            Sample.armed with
    | Some s => s
    | None => initialState
    end.

Definition matchOf (id : string) : Matches.Match :=
  Matches.mkMatch id "venue-1" "court-1" "PADEL"
    "2024-01-04T09:00Z" "2024-01-04T10:30Z"
    [Matches.mkTeam "team-1" [Matches.mkPlayer "user-1" "Player 1" None None];
     Matches.mkTeam "team-2" [Matches.mkPlayer "user-2" "Player 2" None None]].

Definition twelve : list Matches.Match :=
  map matchOf
    ["m01"; "m02"; "m03"; "m04"; "m05"; "m06";
     "m07"; "m08"; "m09"; "m10"; "m11"; "m12"].

(** A backend whose second page is refused. *)
Definition secondPageRefused (page : nat) : Fetched (list Matches.Match) :=
  if Nat.eqb page 0 then Ok (firstn 10 twelve) else NotOk "Too many requests".

(** A backend that ignores the page number. *)
Definition samePageAlways (page : nat) : Fetched (list Matches.Match) :=
  Ok (firstn 10 twelve).

End Scenario.

(** ** Proof automation for the segments *)

Ltac solve_requests :=
  let r := fresh "r" in
  let H := fresh "H" in
  intros r H;
  repeat (apply in_app_or in H; destruct H as [H | H]);
  first
    [ left; exact H
    | simpl in H; repeat (destruct H as [H | H]; try discriminate H); contradiction ].

Ltac solve_segment Hqt Hqu :=
  unfold segmentOf; cbn;
  repeat match goal with |- _ /\ _ => split end;
  try reflexivity; try apply incl_refl;
  try (rewrite ?Hqt, ?Hqu; discriminate);
  try solve_requests.


(** * Properties *)

(** ** The scheduler *)

Section SchedulerFacts.

Variable parseDate : string -> option Z.

Lemma cancelRefreshTimer_frame (s : State) :
  tokens (cancelRefreshTimer s) = tokens s /\
  currentUser (cancelRefreshTimer s) = currentUser s /\
  queuedTokens (cancelRefreshTimer s) = queuedTokens s /\
  queuedUser (cancelRefreshTimer s) = queuedUser s /\
  inflight (cancelRefreshTimer s) = inflight s /\
  authChanges (cancelRefreshTimer s) = authChanges s /\
  requests (cancelRefreshTimer s) = requests s /\
  mounted (cancelRefreshTimer s) = mounted s.
Proof.
  unfold cancelRefreshTimer.
  destruct (refreshTimerRef s); simpl; repeat split; reflexivity.
Qed.

Lemma cancelRefreshTimer_no_new_timer (s : State) (tm : Timer) :
  In tm (timers (cancelRefreshTimer s)) -> In tm (timers s).
Proof.
  unfold cancelRefreshTimer.
  destruct (refreshTimerRef s) as [id|]; simpl; [|tauto].
  intros H. apply filter_In in H. tauto.
Qed.

Lemma cancelRefreshTimer_clears (s : State) :
  timerInv s ->
  timers (cancelRefreshTimer s) = [] /\ refreshTimerRef (cancelRefreshTimer s) = None.
Proof.
  unfold timerInv, cancelRefreshTimer.
  intros [Hnil | [t [Hone Href]]].
  - destruct (refreshTimerRef s) as [id|] eqn:E; simpl.
    + rewrite Hnil. simpl. split; reflexivity.
    + split; assumption.
  - rewrite Href. simpl. rewrite Hone. simpl.
    rewrite Nat.eqb_refl. simpl. split; reflexivity.
Qed.

Lemma scheduleTokenRefresh_cases (t : TokensData) (now : Z) (s : State) :
  scheduleTokenRefresh parseDate (Val t) now s =
  match scheduling parseDate t now with
  | NoDeadline => cancelRefreshTimer s
  | RefreshNow => fst (refreshToken (Val t) (cancelRefreshTimer s))
  | RefreshIn ms =>
      with_refreshTimerRef (Some (nextTimerId (cancelRefreshTimer s)))
        (fst (setTimeout now ms (Val t) (cancelRefreshTimer s)))
  end.
Proof.
  unfold scheduleTokenRefresh, scheduling.
  destruct (String.eqb (accessExpiresAt t) ""); [reflexivity|].
  destruct (parseDate (accessExpiresAt t)) as [expiresAt|]; [|reflexivity].
  destruct (expiresAt - now <=? 0); [reflexivity|].
  destruct (expiresAt - now <? MAX_TIMEOUT); reflexivity.
Qed.

Lemma refreshToken_timers (tok : Nullable TokensData) (s : State) :
  timers (fst (refreshToken tok s)) = timers s /\
  refreshTimerRef (fst (refreshToken tok s)) = refreshTimerRef s.
Proof.
  unfold refreshToken. destruct (heldRefreshToken tok); simpl; split; reflexivity.
Qed.

Lemma scheduleTokenRefresh_timerInv (tok : Nullable TokensData) (now : Z) (s : State) :
  timerInv s -> timerInv (scheduleTokenRefresh parseDate tok now s).
Proof.
  intros Hinv.
  destruct (cancelRefreshTimer_clears s Hinv) as [Ht Hr].
  destruct tok as [| |t];
    try (unfold scheduleTokenRefresh; left; exact Ht).
  rewrite scheduleTokenRefresh_cases.
  destruct (scheduling parseDate t now) as [| |ms].
  - left; exact Ht.
  - left. destruct (refreshToken_timers (Val t) (cancelRefreshTimer s)) as [E _].
    rewrite E. exact Ht.
  - right. simpl. rewrite Ht. simpl. eexists. split; reflexivity.
Qed.

Lemma commit_timerInv (now : Z) (s : State) :
  timerInv s -> timerInv (commit parseDate now s).
Proof.
  intros Hinv. unfold commit.
  match goal with |- timerInv (if ?c then _ else _) => destruct c end.
  - apply scheduleTokenRefresh_timerInv. exact Hinv.
  - exact Hinv.
Qed.

End SchedulerFacts.

(** ** Frame facts about the segments *)

Lemma sameTimers_timerInv (s s' : State) :
  sameTimers s s' -> timerInv s -> timerInv s'.
Proof.
  unfold sameTimers, timerInv. intros [Ht Hr]. rewrite Ht, Hr. tauto.
Qed.

Lemma notifyAuthChange_sameTimers (p : Props) (v : option TokensData) (s : State) :
  sameTimers s (notifyAuthChange p v s).
Proof.
  unfold notifyAuthChange, sameTimers. destruct (onAuthChange p); split; reflexivity.
Qed.

Lemma sameTimers_trans (s1 s2 s3 : State) :
  sameTimers s1 s2 -> sameTimers s2 s3 -> sameTimers s1 s3.
Proof.
  unfold sameTimers. intros [A B] [C D]. split; congruence.
Qed.

Lemma resumeTask_sameTimers (n : nat) (s s' : State) (k : Task) :
  resumeTask n s = Some (k, s') -> sameTimers s s'.
Proof.
  unfold resumeTask. destruct (nth_error (inflight s) n); [|discriminate].
  intros H. injection H as _ <-. split; reflexivity.
Qed.

Lemma loadInitialTokens_sameTimers (p : Props) (s : State) :
  sameTimers s (loadInitialTokens p s).
Proof.
  unfold loadInitialTokens. destruct (initialTokens p); split; reflexivity.
Qed.

Lemma loadInitialTokens_resolved_sameTimers (p : Props) (s : State) :
  sameTimers s (loadInitialTokens_resolved p s).
Proof.
  unfold loadInitialTokens_resolved.
  destruct (resolvedInitialTokens p) as [[t|]|]; split; reflexivity.
Qed.

Lemma loadInitialTokens_user_sameTimers (r : Fetched UserPayload) (s : State) :
  sameTimers s (loadInitialTokens_user r s).
Proof.
  unfold loadInitialTokens_user. destruct (loadUserInfo_result r); split; reflexivity.
Qed.

Lemma login_sameTimers (cu : Nullable UserData) (c : Credentials) (s : State) :
  sameTimers s (fst (login cu c s)).
Proof.
  unfold login. destruct (negb (is_null cu)); split; reflexivity.
Qed.

Lemma login_response_sameTimers (r : Fetched AuthPayload) (s : State) :
  sameTimers s (fst (login_response r s)).
Proof.
  destruct r; split; reflexivity.
Qed.

Lemma login_user_sameTimers (p : Props) (t : TokensData) (r : Fetched UserPayload)
    (s : State) :
  sameTimers s (fst (login_user p t r s)).
Proof.
  unfold login_user. destruct (loadUserInfo_result r); simpl.
  - eapply sameTimers_trans; [|apply notifyAuthChange_sameTimers]. split; reflexivity.
  - split; reflexivity.
Qed.

Lemma logout_sameTimers (p : Props) (cu : Nullable UserData) (s : State) :
  sameTimers s (fst (logout p cu s)).
Proof.
  unfold logout. destruct (is_null cu); simpl.
  - split; reflexivity.
  - eapply sameTimers_trans; [|apply notifyAuthChange_sameTimers]. split; reflexivity.
Qed.

Lemma refreshToken_resume_sameTimers (p : Props) (r : Fetched AuthPayload) (s : State) :
  sameTimers s (fst (refreshToken_resume p r s)).
Proof.
  destruct r; simpl;
    (eapply sameTimers_trans; [|apply notifyAuthChange_sameTimers]); split; reflexivity.
Qed.

Lemma findTimer_fired (id : nat) (s : State) (t : Timer) :
  timerInv s -> findTimer id s = Some t ->
  timers s = [t] /\ timers (clearTimeout id s) = [].
Proof.
  unfold timerInv, findTimer. intros [Hnil | [t0 [Hone _]]] Hfind.
  - rewrite Hnil in Hfind. discriminate.
  - rewrite Hone in Hfind. simpl in Hfind.
    destruct (Nat.eqb (timerId t0) id) eqn:E; [|discriminate].
    injection Hfind as <-. split; [exact Hone|].
    simpl. rewrite Hone. simpl. rewrite E. reflexivity.
Qed.

(** ** At most one refresh timer is pending *)

Section Reachability.

Variable parseDate : string -> option Z.
Variable p : Props.

Lemma step_timerInv (now : Z) (e : Event) (s s' : State) :
  timerInv s -> step parseDate p now e s = Some s' -> timerInv s'.
Proof.
  intros Hinv Hstep.
  destruct e as [|c| |n|n r|n r|n r|id]; simpl in Hstep.
  - destruct (mounted s); [discriminate|]. injection Hstep as <-.
    apply commit_timerInv.
    eapply sameTimers_timerInv; [apply loadInitialTokens_sameTimers|].
    eapply sameTimers_timerInv; [|exact Hinv]. split; reflexivity.
  - destruct (mounted s); [|discriminate]. injection Hstep as <-.
    unfold callLogin.
    pose proof (login_sameTimers (currentUser s) c s) as Hs.
    destruct (login (currentUser s) c s) as [s1 o]. simpl in *.
    apply commit_timerInv. eapply sameTimers_timerInv; eassumption.
  - destruct (mounted s); [|discriminate]. injection Hstep as <-.
    unfold callLogout.
    pose proof (logout_sameTimers p (currentUser s) s) as Hs.
    destruct (logout p (currentUser s) s) as [s1 o]. simpl in *.
    apply commit_timerInv. eapply sameTimers_timerInv; eassumption.
  - destruct (resumeTask n s) as [[k s1]|] eqn:E; [|discriminate].
    apply resumeTask_sameTimers in E.
    destruct k; try discriminate. injection Hstep as <-.
    apply commit_timerInv.
    eapply sameTimers_timerInv; [apply loadInitialTokens_resolved_sameTimers|].
    eapply sameTimers_timerInv; eassumption.
  - destruct (resumeTask n s) as [[k s1]|] eqn:E; [|discriminate].
    apply resumeTask_sameTimers in E.
    destruct k; try discriminate. injection Hstep as <-.
    apply commit_timerInv.
    eapply sameTimers_timerInv; [apply login_response_sameTimers|].
    eapply sameTimers_timerInv; eassumption.
  - destruct (resumeTask n s) as [[k s1]|] eqn:E; [|discriminate].
    apply resumeTask_sameTimers in E.
    destruct k; try discriminate; injection Hstep as <-; apply commit_timerInv.
    + eapply sameTimers_timerInv; [apply loadInitialTokens_user_sameTimers|].
      eapply sameTimers_timerInv; eassumption.
    + eapply sameTimers_timerInv; [apply login_user_sameTimers|].
      eapply sameTimers_timerInv; eassumption.
  - destruct (resumeTask n s) as [[k s1]|] eqn:E; [|discriminate].
    apply resumeTask_sameTimers in E.
    destruct k; try discriminate. injection Hstep as <-.
    unfold refreshResponse.
    pose proof (refreshToken_resume_sameTimers p r s1) as Hs.
    destruct (refreshToken_resume p r s1) as [s2 b]. simpl in *.
    apply commit_timerInv.
    eapply sameTimers_timerInv; [exact Hs|].
    eapply sameTimers_timerInv; eassumption.
  - destruct (findTimer id s) as [t|] eqn:E; [|discriminate].
    destruct (armedAt t + delay t <=? now); [|discriminate].
    injection Hstep as <-.
    apply commit_timerInv. left.
    destruct (refreshToken_timers (timerTokens t) (clearTimeout id s)) as [Ht _].
    rewrite Ht. eapply findTimer_fired; eassumption.
Qed.

Lemma reachable_timerInv (s : State) :
  reachable parseDate p s -> timerInv s.
Proof.
  induction 1 as [|s s' now e _ IH Hstep].
  - left. reflexivity.
  - eapply step_timerInv; eassumption.
Qed.

Lemma run_reachable (es : list (Z * Event)) (s s' : State) :
  reachable parseDate p s -> run parseDate p es s = Some s' ->
  reachable parseDate p s'.
Proof.
  revert s. induction es as [|[now e] es IH]; simpl; intros s Hr Hrun.
  - injection Hrun as <-. exact Hr.
  - destruct (step parseDate p now e s) as [s1|] eqn:E; [|discriminate].
    eapply IH; [|exact Hrun]. eapply reachable_step; eassumption.
Qed.

End Reachability.

(** ** The scheduler, claim by claim *)

Lemma commit_new_tokens (parseDate : string -> option Z) (now : Z) (s : State)
    (t : TokensData) :
  queuedTokens s = Some (Val t) ->
  commit parseDate now s =
  scheduleTokenRefresh parseDate (Val t) now
    (with_exposed (Val t)
       (match queuedUser s with Some v => v | None => currentUser s end) s).
Proof.
  intros Hq. unfold commit. rewrite Hq.
  destruct (tokens s); reflexivity.
Qed.

Lemma commit_without_token_update (parseDate : string -> option Z) (now : Z) (s : State) :
  queuedTokens s = None ->
  timers (commit parseDate now s) = timers s /\
  refreshTimerRef (commit parseDate now s) = refreshTimerRef s /\
  requests (commit parseDate now s) = requests s /\
  inflight (commit parseDate now s) = inflight s.
Proof.
  intros Hq. unfold commit. rewrite Hq. simpl. repeat split; reflexivity.
Qed.

Lemma commit_cleared_tokens (parseDate : string -> option Z) (now : Z) (s : State) :
  queuedTokens s = Some Null ->
  commit parseDate now s =
  with_exposed Null (match queuedUser s with Some v => v | None => currentUser s end) s.
Proof.
  intros Hq. unfold commit. rewrite Hq.
  destruct (tokens s); reflexivity.
Qed.

Lemma timerInv_length (s : State) : timerInv s -> (List.length (timers s) <= 1)%nat.
Proof.
  intros [H | [t [H _]]]; rewrite H; simpl; lia.
Qed.

Lemma scheduling_no_deadline (parseDate : string -> option Z) (t : TokensData)
    (now : Z) (s : State) :
  scheduling parseDate t now = NoDeadline ->
  let s' := scheduleTokenRefresh parseDate (Val t) now s in
  s' = cancelRefreshTimer s /\
  requests s' = requests s /\
  inflight s' = inflight s /\
  (forall tm, In tm (timers s') -> In tm (timers s)) /\
  (timerInv s -> timers s' = []).
Proof.
  intros Hsch. cbv zeta. rewrite scheduleTokenRefresh_cases, Hsch.
  destruct (cancelRefreshTimer_frame s) as (_ & _ & _ & _ & Hi & _ & Hr & _).
  repeat split; try assumption.
  - apply cancelRefreshTimer_no_new_timer.
  - intros Hinv. apply cancelRefreshTimer_clears. exact Hinv.
Qed.

(** C7. A token pair whose refresh deadline lies more than 2147483647 ms
    ahead is treated as far future: [scheduleTokenRefresh] only cancels the
    timer the ref holds; it arms no timer and starts no refresh (no
    request goes out, no call is suspended).  The deadline is looked at
    again only when the tokens change: a commit without a token update
    leaves timers, ref and requests alone. *)
Theorem far_future_deadline_not_scheduled
    (parseDate : string -> option Z) (t : TokensData) (expiresAt now : Z) (s : State) :
  parseDate (accessExpiresAt t) = Some expiresAt ->
  expiresAt - REFRESH_THRESHOLD_MS - now > MAX_TIMEOUT ->
  let s' := scheduleTokenRefresh parseDate (Val t) now s in
  (s' = cancelRefreshTimer s /\
   requests s' = requests s /\
   inflight s' = inflight s /\
   (forall tm, In tm (timers s') -> In tm (timers s)) /\
   (timerInv s -> timers s' = [])) /\
  (forall (later : Z) (s0 : State),
     queuedTokens s0 = None ->
     timers (commit parseDate later s0) = timers s0 /\
     refreshTimerRef (commit parseDate later s0) = refreshTimerRef s0 /\
     requests (commit parseDate later s0) = requests s0 /\
     inflight (commit parseDate later s0) = inflight s0).
Proof.
  intros Hparse Hfar. split.
  - apply scheduling_no_deadline.
    unfold scheduling. rewrite Hparse.
    destruct (String.eqb (accessExpiresAt t) ""); [reflexivity|].
    unfold REFRESH_THRESHOLD_MS, MAX_TIMEOUT in *.
    destruct (Z.leb_spec (expiresAt - now) 0); [lia|].
    destruct (Z.ltb_spec (expiresAt - now) 2147483647); [lia|reflexivity].
  - intros later s0. apply commit_without_token_update.
Qed.

(** C8. A token pair whose [accessExpiresAt] does not parse has no
    deadline: [scheduleTokenRefresh] arms no timer and starts no refresh. *)
Theorem unparseable_expiry_has_no_deadline
    (parseDate : string -> option Z) (t : TokensData) (now : Z) (s : State) :
  parseDate (accessExpiresAt t) = None ->
  let s' := scheduleTokenRefresh parseDate (Val t) now s in
  s' = cancelRefreshTimer s /\
  requests s' = requests s /\
  inflight s' = inflight s /\
  (forall tm, In tm (timers s') -> In tm (timers s)) /\
  (timerInv s -> timers s' = []).
Proof.
  intros Hparse. apply scheduling_no_deadline.
  unfold scheduling. rewrite Hparse.
  destruct (String.eqb (accessExpiresAt t) ""); reflexivity.
Qed.

(** C10. When no refresh token is held (tokens [undefined], [null], or a
    pair whose [refresh] field is empty) [refreshToken] returns [false] at
    once and leaves the whole state as it was: no backend request, no
    change of tokens or user, no [onAuthChange] call. *)
Theorem refreshToken_without_refresh_token (tok : Nullable TokensData) (s : State) :
  tok = Undefined \/ tok = Null \/ (exists t, tok = Val t /\ refresh t = "") ->
  refreshToken tok s = (s, Some false).
Proof.
  intros [-> | [-> | [t [-> Hempty]]]]; try reflexivity.
  unfold refreshToken, heldRefreshToken. rewrite Hempty. reflexivity.
Qed.

(** C5 (amended). In every reachable state at most one refresh timer is
    pending.  When a new token pair whose [accessExpiresAt] parses to
    [expiresAt] is committed, the scheduler first cancels the timer it
    holds and then: if [expiresAt <= now] it calls [refreshToken] at once
    and arms nothing; if [now < expiresAt < now + MAX_TIMEOUT] it arms
    exactly one timer, with delay [max 0 (expiresAt - REFRESH_THRESHOLD_MS
    - now)], and sends no request.  A deadline that has passed while the
    token is still valid is thus scheduled with delay 0, not run inline. *)
Theorem refresh_deadline_scheduling (parseDate : string -> option Z) (p : Props) :
  (forall s, reachable parseDate p s -> (List.length (timers s) <= 1)%nat) /\
  (forall (s : State) (t : TokensData) (expiresAt now : Z),
     timerInv s ->
     queuedTokens s = Some (Val t) ->
     accessExpiresAt t <> "" ->
     parseDate (accessExpiresAt t) = Some expiresAt ->
     let s' := commit parseDate now s in
     tokens s' = Val t /\
     (List.length (timers s') <= 1)%nat /\
     (expiresAt <= now ->
        timers s' = [] /\
        forall r, heldRefreshToken (Val t) = Some r ->
          requests s' = requests s ++ [PostRefresh r] /\
          inflight s' = inflight s ++ [RefreshAwaitResponse]) /\
     (now < expiresAt < now + MAX_TIMEOUT ->
        exists id,
          timers s' =
            [mkTimer id now (Z.max 0 (expiresAt - REFRESH_THRESHOLD_MS - now)) (Val t)] /\
          refreshTimerRef s' = Some id /\
          requests s' = requests s /\
          inflight s' = inflight s)).
Proof.
  split.
  - intros s Hr. apply timerInv_length. eapply reachable_timerInv. exact Hr.
  - intros s t expiresAt now Hinv Hq Hne Hparse. cbv zeta.
    rewrite (commit_new_tokens parseDate now s t Hq).
    set (u := match queuedUser s with Some v => v | None => currentUser s end).
    set (s0 := with_exposed (Val t) u s).
    assert (Hinv0 : timerInv s0)
      by (eapply sameTimers_timerInv; [|exact Hinv]; split; reflexivity).
    destruct (cancelRefreshTimer_clears s0 Hinv0) as [Hct Hcr].
    destruct (cancelRefreshTimer_frame s0) as (Htok & _ & _ & _ & Hci & _ & Hcq & _).
    assert (Hlen : (List.length (timers (scheduleTokenRefresh parseDate (Val t) now s0)) <= 1)%nat)
      by (apply timerInv_length, scheduleTokenRefresh_timerInv; exact Hinv0).
    rewrite scheduleTokenRefresh_cases in *.
    unfold scheduling in *. rewrite Hparse in *.
    apply String.eqb_neq in Hne. rewrite Hne in *.
    destruct (Z.leb_spec (expiresAt - now) 0) as [Hle | Hgt].
    + split; [|split; [exact Hlen|split]].
      * unfold refreshToken. destruct (heldRefreshToken (Val t)); simpl; exact Htok.
      * intros _. split.
        -- destruct (refreshToken_timers (Val t) (cancelRefreshTimer s0)) as [E _].
           rewrite E. exact Hct.
        -- intros r Hr. unfold refreshToken. rewrite Hr. simpl.
           rewrite Hcq, Hci. split; reflexivity.
      * intros [Hlt _]. lia.
    + destruct (Z.ltb_spec (expiresAt - now) MAX_TIMEOUT) as [Hlt | Hge].
      * split; [|split; [exact Hlen|split]].
        -- simpl. exact Htok.
        -- intros Hle. lia.
        -- intros _. exists (nextTimerId (cancelRefreshTimer s0)). simpl.
           rewrite Hct, Hcq, Hci.
           replace (expiresAt - REFRESH_THRESHOLD_MS - now)
             with (expiresAt - now - REFRESH_THRESHOLD_MS) by lia.
           repeat split; reflexivity.
      * split; [|split; [exact Hlen|split]].
        -- exact Htok.
        -- intros Hle. lia.
        -- intros [_ Hlt]. lia.
Qed.

(** ** Refresh failure *)

Lemma scheduleTokenRefresh_authChanges (parseDate : string -> option Z)
    (tok : Nullable TokensData) (now : Z) (s : State) :
  authChanges (scheduleTokenRefresh parseDate tok now s) = authChanges s.
Proof.
  destruct (cancelRefreshTimer_frame s) as (_ & _ & _ & _ & _ & Ha & _).
  destruct tok as [| |t]; try exact Ha.
  rewrite scheduleTokenRefresh_cases.
  destruct (scheduling parseDate t now); try exact Ha.
  unfold refreshToken. destruct (heldRefreshToken (Val t)); exact Ha.
Qed.

Lemma commit_authChanges (parseDate : string -> option Z) (now : Z) (s : State) :
  authChanges (commit parseDate now s) = authChanges s.
Proof.
  unfold commit.
  match goal with |- authChanges (if ?c then _ else _) = _ => destruct c end.
  - rewrite scheduleTokenRefresh_authChanges. reflexivity.
  - reflexivity.
Qed.

Lemma resumeTask_frame (n : nat) (s s' : State) (k : Task) :
  resumeTask n s = Some (k, s') ->
  nth_error (inflight s) n = Some k /\
  s' = with_inflight (firstn n (inflight s) ++ skipn (S n) (inflight s)) s.
Proof.
  unfold resumeTask. destruct (nth_error (inflight s) n); [|discriminate].
  intros H. injection H as -> <-. split; reflexivity.
Qed.


(** ** [logout] *)


Lemma logout_clears_when_user_not_null
    (parseDate : string -> option Z) (p : Props) (now : Z) (s : State) :
  is_null (currentUser s) = false ->
  callLogout parseDate p now s =
  (with_exposed Null Null (notifyAuthChange p None s), Fulfilled).
Proof.
  intros Hu. unfold callLogout, logout. rewrite Hu.
  rewrite commit_cleared_tokens
    by (unfold notifyAuthChange; destruct (onAuthChange p); reflexivity).
  unfold notifyAuthChange. destruct (onAuthChange p); reflexivity.
Qed.



(** ** The change observer *)

Lemma refreshToken_authChanges (tok : Nullable TokensData) (s : State) :
  authChanges (fst (refreshToken tok s)) = authChanges s.
Proof.
  unfold refreshToken. destruct (heldRefreshToken tok); reflexivity.
Qed.

(** C4 (amended). With an observer registered, every step appends to the
    [onAuthChange] history exactly the calls of [expectedAuthChanges]: one
    call with the new pair when a login or a refresh succeeds, one call
    with [null] when a logout passes its guard or a refresh fails, and no
    call in any other step; in particular an identity fetch that fails
    (in [login] or in the initial resolution) and every step of the
    initial resolution call nothing. *)
Theorem observer_called_once_per_transition
    (parseDate : string -> option Z) (p : Props) (now : Z) (e : Event) (s s' : State) :
  onAuthChange p = true ->
  step parseDate p now e s = Some s' ->
  authChanges s' = authChanges s ++ expectedAuthChanges e s.
Proof.
  intros Hobs Hstep.
  destruct e as [|c| |n|n r|n r|n r|id]; simpl in Hstep; simpl expectedAuthChanges.
  - destruct (mounted s); [discriminate|]. injection Hstep as <-.
    rewrite commit_authChanges, app_nil_r.
    unfold loadInitialTokens. destruct (initialTokens p); reflexivity.
  - destruct (mounted s); [|discriminate]. injection Hstep as <-.
    unfold callLogin, login.
    destruct (negb (is_null (currentUser s))); simpl;
      rewrite commit_authChanges, app_nil_r; reflexivity.
  - destruct (mounted s); [|discriminate]. injection Hstep as <-.
    unfold callLogout, logout, notifyAuthChange. rewrite Hobs.
    destruct (is_null (currentUser s)); simpl; rewrite commit_authChanges.
    + rewrite app_nil_r. reflexivity.
    + reflexivity.
  - destruct (resumeTask n s) as [[k s1]|] eqn:E; [|discriminate].
    apply resumeTask_frame in E. destruct E as [_ ->].
    destruct k; try discriminate. injection Hstep as <-.
    rewrite commit_authChanges, app_nil_r.
    unfold loadInitialTokens_resolved.
    destruct (resolvedInitialTokens p) as [[t|]|]; reflexivity.
  - destruct (resumeTask n s) as [[k s1]|] eqn:E; [|discriminate].
    apply resumeTask_frame in E. destruct E as [_ ->].
    destruct k; try discriminate. injection Hstep as <-.
    rewrite commit_authChanges, app_nil_r.
    destruct r; reflexivity.
  - destruct (resumeTask n s) as [[k s1]|] eqn:E; [|discriminate].
    apply resumeTask_frame in E. destruct E as [Hnth ->]. rewrite Hnth.
    destruct k; try discriminate; injection Hstep as <-;
      rewrite commit_authChanges.
    + rewrite app_nil_r. unfold loadInitialTokens_user.
      destruct (loadUserInfo_result r); reflexivity.
    + unfold login_user, notifyAuthChange. rewrite Hobs.
      destruct (loadUserInfo_result r); simpl.
      * reflexivity.
      * rewrite app_nil_r. reflexivity.
  - destruct (resumeTask n s) as [[k s1]|] eqn:E; [|discriminate].
    apply resumeTask_frame in E. destruct E as [Hnth ->]. rewrite Hnth.
    destruct k; try discriminate. injection Hstep as <-.
    unfold refreshResponse, refreshToken_resume, notifyAuthChange. rewrite Hobs.
    destruct r; simpl; rewrite commit_authChanges; reflexivity.
  - destruct (findTimer id s) as [t|]; [|discriminate].
    destruct (armedAt t + delay t <=? now); [|discriminate].
    injection Hstep as <-.
    rewrite commit_authChanges, refreshToken_authChanges, app_nil_r. reflexivity.
Qed.

(** ** Closed runs *)

(** C4, as first stated, fails: Alice logs in, the backend accepts the
    credentials, and the identity fetch is answered 401.  The login is
    rejected and the session is left Unauthenticated, yet the registered
    observer has not been called at all. *)
Lemma identity_fetch_failure_does_not_notify :
  exists s s',
    run Sample.parseDate Sample.observed
        [(0, Mount); (1, CallLogin Sample.credentials);
         (2, LoginResponse 0 (Ok (Sample.payloadOf Sample.farTokens)))]
        initialState = Some s /\
    inflight s = [LoginAwaitUser Sample.farTokens] /\
    step Sample.parseDate Sample.observed 3 (UserResponse 0 (NotOk "Unauthorized")) s
      = Some s' /\
    onAuthChange Sample.observed = true /\
    Unauthenticated s' /\
    authChanges s' = [] /\
    authChanges s' <> authChanges s ++ [None].
Proof.
  eexists. eexists.
  split; [vm_compute; reflexivity|].
  split; [reflexivity|].
  split; [vm_compute; reflexivity|].
  split; [reflexivity|].
  split; [split; reflexivity|].
  split; [reflexivity|].
  simpl. discriminate.
Qed.

(** The same in the initial resolution: the supplied tokens are dropped
    after a 401 without any observer call. *)
Lemma initial_identity_failure_does_not_notify :
  exists s,
    run Sample.parseDate (Sample.observedWith Sample.farTokens)
        [(0, Mount); (0, InitialTokensResolve 0);
         (5, UserResponse 0 (NotOk "Unauthorized"))]
        initialState = Some s /\
    Unauthenticated s /\ authChanges s = [].
Proof.
  eexists. split; [vm_compute; reflexivity|].
  split; [split; reflexivity | reflexivity].
Qed.

(** C5, as first stated, fails: Alice logs in at time 3 and receives a
    pair that expires at 120000, so its refresh deadline
    [120000 - REFRESH_THRESHOLD_MS] has passed.  The refresh is not run:
    a timer with delay 0 is armed and no refresh request has gone out. *)
Lemma passed_deadline_is_scheduled_not_executed :
  exists s,
    run Sample.parseDate Sample.observed
        [(0, Mount); (1, CallLogin Sample.credentials);
         (2, LoginResponse 0 (Ok (Sample.payloadOf Sample.nearTokens)));
         (3, UserResponse 0 (Ok Sample.alicePayload))]
        initialState = Some s /\
    tokens s = Val Sample.nearTokens /\
    Sample.parseDate (accessExpiresAt Sample.nearTokens) = Some 120000 /\
    120000 - REFRESH_THRESHOLD_MS <= 3 /\
    timers s = [mkTimer 1 3 0 (Val Sample.nearTokens)] /\
    requests s = [PostLogin Sample.credentials; GetMe "access-3"] /\
    inflight s = [].
Proof.
  eexists. split; [vm_compute; reflexivity|].
  repeat split; try reflexivity.
  vm_compute. discriminate.
Qed.


(** C1 fails on the code.  With [initialTokens] supplied, the step that
    resolves them commits [setTokens(resolvedTokens)] before the identity
    fetch has answered: consumers see the token pair with [currentUser]
    still [undefined]. *)
Theorem initial_tokens_exposed_before_user :
  exists s,
    run Sample.parseDate (Sample.observedWith Sample.farTokens)
        [(0, Mount); (0, InitialTokensResolve 0)] initialState = Some s /\
    reachable Sample.parseDate (Sample.observedWith Sample.farTokens) s /\
    tokens s = Val Sample.farTokens /\
    currentUser s = Undefined /\
    inflight s = [InitAwaitUser Sample.farTokens] /\
    ~ consistent s.
Proof.
  eexists. split; [vm_compute; reflexivity|].
  split.
  - apply (run_reachable Sample.parseDate (Sample.observedWith Sample.farTokens)
             [(0, Mount); (0, InitialTokensResolve 0)] initialState).
    + apply reachable_first_render.
    + vm_compute. reflexivity.
  - repeat split; try reflexivity.
    unfold consistent, Unresolved, Authenticated, Unauthenticated. simpl.
    intros [[H _] | [[_ [u H]] | [H _]]]; discriminate.
Qed.

(** Two more runs that end outside the three shapes.  A logout during the
    initial resolution is overtaken by the identity answer: a user with
    no tokens. *)
Lemma logout_during_initial_resolution :
  exists s,
    run Sample.parseDate (Sample.observedWith Sample.farTokens)
        [(0, Mount); (0, InitialTokensResolve 0); (1, CallLogout);
         (5, UserResponse 0 (Ok Sample.alicePayload))]
        initialState = Some s /\
    tokens s = Null /\ currentUser s = Val Sample.alice.
Proof.
  eexists. split; [vm_compute; reflexivity|]. split; reflexivity.
Qed.

(** The timer armed for a pair survives the logout (the effect calls
    [scheduleTokenRefresh] only when [tokens] is truthy); when it fires,
    the refresh it starts brings tokens back for a logged-out user. *)
Lemma refresh_timer_survives_logout :
  exists s,
    run Sample.parseDate (Sample.observedWith Sample.soonTokens)
        [(0, Mount); (0, InitialTokensResolve 0);
         (5, UserResponse 0 (Ok Sample.alicePayload));
         (6, CallLogout);
         (300000, TimerFires 1);
         (300001, RefreshResponse 0 (Ok (Sample.payloadOf Sample.farTokens)))]
        initialState = Some s /\
    tokens s = Val Sample.farTokens /\ currentUser s = Null.
Proof.
  eexists. split; [vm_compute; reflexivity|]. split; reflexivity.
Qed.

(** C2 fails on the code.  Alice is logged in and [login] is called again:
    the call is rejected with "User is already logged in", but the [catch]
    of [login] has cleared the session, and the observer was not told. *)
Theorem login_while_authenticated_clears_session :
  exists s,
    run Sample.parseDate (Sample.observedWith Sample.farTokens)
        [(0, Mount); (0, InitialTokensResolve 0);
         (5, UserResponse 0 (Ok Sample.alicePayload))]
        initialState = Some s /\
    tokens s = Val Sample.farTokens /\
    currentUser s = Val Sample.alice /\
    let after :=
      callLogin Sample.parseDate 6 Sample.credentials s in
    snd after = Rejected "User is already logged in" /\
    tokens (fst after) = Null /\
    currentUser (fst after) = Null /\
    authChanges (fst after) = authChanges s /\
    fst after <> s.
Proof.
  eexists. split; [vm_compute; reflexivity|].
  repeat split; try reflexivity.
  vm_compute. discriminate.
Qed.

(** C3 fails on the code.  While the initial tokens are still resolving
    the state is Unresolved; [logout()] passes the guard
    [currentUser === null] (the value is [undefined]), is fulfilled,
    clears the state and calls the observer with [null]. *)
Theorem logout_while_unresolved_succeeds :
  exists s,
    run Sample.parseDate (Sample.observedWith Sample.farTokens)
        [(0, Mount)] initialState = Some s /\
    Unresolved s /\
    let after := callLogout Sample.parseDate (Sample.observedWith Sample.farTokens) 1 s in
    snd after = Fulfilled /\
    Unauthenticated (fst after) /\
    authChanges (fst after) = [None].
Proof.
  eexists. split; [vm_compute; reflexivity|].
  split; [split; reflexivity|].
  cbv zeta. split; [reflexivity|]. split; [split; reflexivity | reflexivity].
Qed.

(** ** Instances on the sample data *)

Lemma armed_reachable :
  reachable Sample.parseDate (Sample.observedWith Sample.soonTokens) Sample.armed.
Proof.
  apply (run_reachable Sample.parseDate (Sample.observedWith Sample.soonTokens)
           [(0, Mount); (0, InitialTokensResolve 0);
            (5, UserResponse 0 (Ok Sample.alicePayload))] initialState).
  - apply reachable_first_render.
  - vm_compute. reflexivity.
Qed.

Lemma armed_timerInv : timerInv Sample.armed.
Proof.
  right. eexists. split; reflexivity.
Qed.

Lemma far_future_deadline_not_scheduled_witness :
  Sample.parseDate (accessExpiresAt Sample.farTokens) = Some 4859740800000 /\
  4859740800000 - REFRESH_THRESHOLD_MS - 5 > MAX_TIMEOUT /\
  timers Sample.armed <> [] /\
  timers (scheduleTokenRefresh Sample.parseDate (Val Sample.farTokens) 5 Sample.armed) = [] /\
  requests (scheduleTokenRefresh Sample.parseDate (Val Sample.farTokens) 5 Sample.armed)
    = requests Sample.armed.
Proof.
  split; [reflexivity|]. split; [reflexivity|]. split; [discriminate|].
  destruct (far_future_deadline_not_scheduled Sample.parseDate Sample.farTokens
              4859740800000 5 Sample.armed eq_refl eq_refl)
    as [(_ & Hreq & _ & _ & Hnone) _].
  split; [apply Hnone, armed_timerInv | exact Hreq].
Defined.

Lemma unparseable_expiry_has_no_deadline_witness :
  Sample.parseDate (accessExpiresAt Sample.badDateTokens) = None /\
  timers (scheduleTokenRefresh Sample.parseDate (Val Sample.badDateTokens) 5 Sample.armed) = [] /\
  requests (scheduleTokenRefresh Sample.parseDate (Val Sample.badDateTokens) 5 Sample.armed)
    = requests Sample.armed.
Proof.
  split; [reflexivity|].
  destruct (unparseable_expiry_has_no_deadline Sample.parseDate Sample.badDateTokens
              5 Sample.armed eq_refl)
    as (_ & Hreq & _ & _ & Hnone).
  split; [apply Hnone, armed_timerInv | exact Hreq].
Defined.

Lemma refreshToken_without_refresh_token_witness :
  refresh Sample.noRefreshTokens = "" /\
  refreshToken (Val Sample.noRefreshTokens) (Sample.loggedIn Sample.noRefreshTokens)
    = (Sample.loggedIn Sample.noRefreshTokens, Some false).
Proof.
  split; [reflexivity|].
  apply refreshToken_without_refresh_token.
  right; right. exists Sample.noRefreshTokens. split; reflexivity.
Defined.

Lemma refresh_deadline_scheduling_witness :
  (List.length (timers Sample.armed) <= 1)%nat /\
  Sample.parseDate (accessExpiresAt Sample.soonTokens) = Some 600000 /\
  0 < 600000 < 0 + MAX_TIMEOUT /\
  exists id,
    timers (commit Sample.parseDate 0 (setTokens (Val Sample.soonTokens) Sample.loggedOut))
      = [mkTimer id 0 300000 (Val Sample.soonTokens)] /\
    refreshTimerRef
      (commit Sample.parseDate 0 (setTokens (Val Sample.soonTokens) Sample.loggedOut))
      = Some id.
Proof.
  destruct (refresh_deadline_scheduling Sample.parseDate
              (Sample.observedWith Sample.soonTokens)) as [Hone Hsched].
  split; [apply Hone, armed_reachable|].
  split; [reflexivity|].
  assert (Hwindow : 0 < 600000 < 0 + MAX_TIMEOUT) by (split; reflexivity).
  split; [exact Hwindow|].
  assert (Hinv : timerInv (setTokens (Val Sample.soonTokens) Sample.loggedOut))
    by (left; reflexivity).
  assert (Hne : accessExpiresAt Sample.soonTokens <> "") by discriminate.
  destruct (Hsched (setTokens (Val Sample.soonTokens) Sample.loggedOut)
              Sample.soonTokens 600000 0 Hinv eq_refl Hne eq_refl)
    as (_ & _ & _ & Harm).
  destruct (Harm Hwindow) as [id (Ht & Hr & _)].
  exists id. split; [exact Ht | exact Hr].
Defined.



Lemma observer_called_once_per_transition_witness :
  onAuthChange Sample.observed = true /\
  exists s',
    step Sample.parseDate Sample.observed 6 CallLogout Sample.armed = Some s' /\
    authChanges s' = authChanges Sample.armed ++ [None].
Proof.
  split; [reflexivity|].
  eexists. split; [vm_compute; reflexivity|].
  apply (observer_called_once_per_transition Sample.parseDate Sample.observed 6
           CallLogout Sample.armed).
  - reflexivity.
  - vm_compute. reflexivity.
Defined.

(** * Further properties of the provider *)

(** ** What a commit does *)

Lemma scheduleTokenRefresh_exposed (parseDate : string -> option Z)
    (tok : Nullable TokensData) (now : Z) (s : State) :
  let s' := scheduleTokenRefresh parseDate tok now s in
  tokens s' = tokens s /\ currentUser s' = currentUser s /\
  queuedTokens s' = queuedTokens s /\ queuedUser s' = queuedUser s /\
  mounted s' = mounted s.
Proof.
  cbv zeta.
  destruct (cancelRefreshTimer_frame s) as (Ht & Hu & Hqt & Hqu & _ & _ & _ & Hm).
  destruct tok as [| |t]; try (unfold scheduleTokenRefresh; tauto).
  rewrite scheduleTokenRefresh_cases.
  destruct (scheduling parseDate t now); try tauto.
  all: unfold refreshToken; destruct (heldRefreshToken (Val t)); simpl; tauto.
Qed.

Lemma commit_exposed (parseDate : string -> option Z) (now : Z) (s : State) :
  let s' := commit parseDate now s in
  tokens s' = match queuedTokens s with Some v => v | None => tokens s end /\
  currentUser s' = match queuedUser s with Some v => v | None => currentUser s end /\
  queuedTokens s' = None /\ queuedUser s' = None /\ mounted s' = mounted s.
Proof.
  cbv zeta. unfold commit.
  match goal with |- context [if ?c then _ else _] => destruct c end.
  - match goal with |- context [scheduleTokenRefresh ?pd ?tok ?n ?x] =>
      destruct (scheduleTokenRefresh_exposed pd tok n x) as (A & B & C & D & E)
    end.
    rewrite A, B, C, D, E. simpl. repeat split; reflexivity.
  - simpl. repeat split; reflexivity.
Qed.

Lemma commit_quiescent_id (parseDate : string -> option Z) (now : Z) (s : State) :
  quiescent s -> commit parseDate now s = s.
Proof.
  intros [Hqt Hqu]. unfold commit. rewrite Hqt, Hqu. simpl.
  destruct s; simpl in *; subst; reflexivity.
Qed.

Lemma heldRefreshToken_nonempty (tok : Nullable TokensData) (r : string) :
  heldRefreshToken tok = Some r -> r <> "".
Proof.
  unfold heldRefreshToken. destruct tok as [| |t]; try discriminate.
  destruct (String.eqb (refresh t) "") eqn:E; [discriminate|].
  intros H. injection H as <-. apply String.eqb_neq. exact E.
Qed.

(** A commit sends nothing, or exactly one refresh request for the pair
    it has just exposed. *)
Lemma commit_traffic (parseDate : string -> option Z) (now : Z) (s : State) :
  let s' := commit parseDate now s in
  (inflight s' = inflight s /\ requests s' = requests s) \/
  (exists t r, tokens s' = Val t /\ heldRefreshToken (Val t) = Some r /\
               inflight s' = inflight s ++ [RefreshAwaitResponse] /\
               requests s' = requests s ++ [PostRefresh r]).
Proof.
  cbv zeta.
  destruct (queuedTokens s) as [[| |t]|] eqn:Hq.
  - left. unfold commit. rewrite Hq. destruct (tokens s); simpl; split; reflexivity.
  - left. rewrite commit_cleared_tokens by exact Hq. split; reflexivity.
  - rewrite (commit_new_tokens parseDate now s t Hq).
    set (s0 := with_exposed (Val t)
                 (match queuedUser s with Some v => v | None => currentUser s end) s).
    destruct (cancelRefreshTimer_frame s0) as (Ht & _ & _ & _ & Hi & _ & Hr & _).
    rewrite scheduleTokenRefresh_cases.
    destruct (scheduling parseDate t now).
    + left. split; assumption.
    + unfold refreshToken.
      destruct (heldRefreshToken (Val t)) as [r|] eqn:Hh.
      * right. exists t, r. cbn [fst].
        split; [exact Ht|]. split; [exact Hh|].
        unfold fetcher. cbn [inflight requests with_inflight with_requests].
        rewrite Hi, Hr. split; reflexivity.
      * left. split; assumption.
    + left. simpl. split; assumption.
  - left.
    destruct (commit_without_token_update parseDate now s Hq) as (_ & _ & A & B).
    split; assumption.
Qed.

(** ** The shape of a step *)

Lemma notifyAuthChange_segment (p : Props) (v : option TokensData) (s s1 : State) :
  segmentOf s s1 -> segmentOf s (notifyAuthChange p v s1).
Proof.
  unfold notifyAuthChange. destruct (onAuthChange p); [|tauto].
  unfold segmentOf. cbn. tauto.
Qed.

Lemma step_segment (parseDate : string -> option Z) (p : Props) (now : Z)
    (e : Event) (s s' : State) :
  quiescent s -> timerInv s -> step parseDate p now e s = Some s' ->
  exists s1, segmentOf s s1 /\ timerInv s1 /\ s' = commit parseDate now s1.
Proof.
  intros [Hqt Hqu] Hinv Hstep.
  destruct e as [|c| |n|n r|n r|n r|id]; simpl in Hstep.
  - destruct (mounted s); [discriminate|]. injection Hstep as <-.
    eexists. split; [|split; [|reflexivity]].
    + unfold loadInitialTokens. destruct (initialTokens p); solve_segment Hqt Hqu.
    + eapply sameTimers_timerInv; [apply loadInitialTokens_sameTimers|].
      eapply sameTimers_timerInv; [|exact Hinv]. split; reflexivity.
  - destruct (mounted s); [|discriminate]. injection Hstep as <-.
    unfold callLogin.
    pose proof (login_sameTimers (currentUser s) c s) as Hs.
    assert (Hseg : segmentOf s (fst (login (currentUser s) c s))).
    { unfold login. destruct (negb (is_null (currentUser s))); solve_segment Hqt Hqu. }
    destruct (login (currentUser s) c s) as [s1 o]. cbn [fst] in *.
    exists s1. split; [exact Hseg|]. split; [|reflexivity].
    eapply sameTimers_timerInv; eassumption.
  - destruct (mounted s); [|discriminate]. injection Hstep as <-.
    unfold callLogout.
    pose proof (logout_sameTimers p (currentUser s) s) as Hs.
    assert (Hseg : segmentOf s (fst (logout p (currentUser s) s))).
    { unfold logout. destruct (is_null (currentUser s)); cbn [fst].
      - solve_segment Hqt Hqu.
      - apply notifyAuthChange_segment. solve_segment Hqt Hqu. }
    destruct (logout p (currentUser s) s) as [s1 o]. cbn [fst] in *.
    exists s1. split; [exact Hseg|]. split; [|reflexivity].
    eapply sameTimers_timerInv; eassumption.
  - destruct (resumeTask n s) as [[k s0]|] eqn:E; [|discriminate].
    pose proof (resumeTask_sameTimers _ _ _ _ E) as Hs0.
    apply resumeTask_frame in E. destruct E as [_ ->].
    destruct k; try discriminate. injection Hstep as <-.
    eexists. split; [|split; [|reflexivity]].
    + unfold loadInitialTokens_resolved, loadUserInfo.
      destruct (resolvedInitialTokens p) as [[t|]|]; solve_segment Hqt Hqu.
    + eapply sameTimers_timerInv; [apply loadInitialTokens_resolved_sameTimers|].
      eapply sameTimers_timerInv; eassumption.
  - destruct (resumeTask n s) as [[k s0]|] eqn:E; [|discriminate].
    pose proof (resumeTask_sameTimers _ _ _ _ E) as Hs0.
    apply resumeTask_frame in E. destruct E as [_ ->].
    destruct k; try discriminate. injection Hstep as <-.
    eexists. split; [|split; [|reflexivity]].
    + unfold loadUserInfo. destruct r; solve_segment Hqt Hqu.
    + eapply sameTimers_timerInv; [apply login_response_sameTimers|].
      eapply sameTimers_timerInv; eassumption.
  - destruct (resumeTask n s) as [[k s0]|] eqn:E; [|discriminate].
    pose proof (resumeTask_sameTimers _ _ _ _ E) as Hs0.
    apply resumeTask_frame in E. destruct E as [_ ->].
    destruct k; try discriminate; injection Hstep as <-;
      (eexists; split; [|split; [|reflexivity]]).
    + unfold loadInitialTokens_user. destruct (loadUserInfo_result r);
        solve_segment Hqt Hqu.
    + eapply sameTimers_timerInv; [apply loadInitialTokens_user_sameTimers|].
      eapply sameTimers_timerInv; eassumption.
    + unfold login_user. destruct (loadUserInfo_result r); cbn [fst].
      * apply notifyAuthChange_segment. solve_segment Hqt Hqu.
      * solve_segment Hqt Hqu.
    + eapply sameTimers_timerInv; [apply login_user_sameTimers|].
      eapply sameTimers_timerInv; eassumption.
  - destruct (resumeTask n s) as [[k s0]|] eqn:E; [|discriminate].
    pose proof (resumeTask_sameTimers _ _ _ _ E) as Hs0.
    apply resumeTask_frame in E. destruct E as [_ ->].
    destruct k; try discriminate. injection Hstep as <-.
    unfold refreshResponse.
    match goal with
    | |- context [refreshToken_resume p r ?x] => set (s0 := x) in *
    end.
    change (sameTimers s s0) in Hs0.
    pose proof (refreshToken_resume_sameTimers p r s0) as Hs.
    assert (Hseg : segmentOf s (fst (refreshToken_resume p r s0))).
    { destruct r; cbn [fst refreshToken_resume];
        apply notifyAuthChange_segment; subst s0; solve_segment Hqt Hqu. }
    destruct (refreshToken_resume p r s0) as [s1 b]. cbn [fst] in *.
    exists s1. split; [exact Hseg|]. split; [|reflexivity].
    eapply sameTimers_timerInv; [exact Hs|].
    eapply sameTimers_timerInv; eassumption.
  - destruct (findTimer id s) as [t|] eqn:E; [|discriminate].
    destruct (armedAt t + delay t <=? now); [|discriminate].
    injection Hstep as <-.
    destruct (findTimer_fired id s t Hinv E) as [_ Hnone].
    eexists. split; [|split; [|reflexivity]].
    + unfold refreshToken.
      destruct (heldRefreshToken (timerTokens t)) as [r|] eqn:Hh; cbn [fst].
      * unfold segmentOf. cbn.
        repeat match goal with |- _ /\ _ => split end;
          try reflexivity; try (rewrite ?Hqt, ?Hqu; discriminate).
        -- intros x Hx. apply filter_In in Hx. tauto.
        -- intros r0 H. apply in_app_or in H. destruct H as [H | [H | []]].
           ++ left; exact H.
           ++ injection H as <-. right.
              eapply heldRefreshToken_nonempty. exact Hh.
      * unfold segmentOf. cbn.
        repeat match goal with |- _ /\ _ => split end;
          try reflexivity; try (rewrite ?Hqt, ?Hqu; discriminate).
        -- intros x Hx. apply filter_In in Hx. tauto.
        -- intros r0 H. left; exact H.
    + left.
      destruct (refreshToken_timers (timerTokens t) (clearTimeout id s)) as [Ht _].
      rewrite Ht. exact Hnone.
Qed.

Lemma reachable_quiescent (parseDate : string -> option Z) (p : Props) (s : State) :
  reachable parseDate p s -> quiescent s.
Proof.
  induction 1 as [|s s' now e Hr IH Hstep].
  - split; reflexivity.
  - destruct (step_segment parseDate p now e s s' IH
                (reachable_timerInv parseDate p s Hr) Hstep) as [s1 (_ & _ & ->)].
    destruct (commit_exposed parseDate now s1) as (_ & _ & A & B & _).
    split; assumption.
Qed.

(** ** Invariants of the reachable states *)

Lemma scheduling_RefreshIn_sound (parseDate : string -> option Z) (t : TokensData)
    (now ms : Z) (id : nat) :
  scheduling parseDate t now = RefreshIn ms ->
  timerSound parseDate (mkTimer id now ms (Val t)).
Proof.
  unfold scheduling, timerSound.
  destruct (String.eqb (accessExpiresAt t) ""); [discriminate|].
  destruct (parseDate (accessExpiresAt t)) as [expiresAt|] eqn:Hp; [|discriminate].
  destruct (Z.leb_spec (expiresAt - now) 0); [discriminate|].
  destruct (Z.ltb_spec (expiresAt - now) MAX_TIMEOUT); [|discriminate].
  intros Heq. injection Heq as <-.
  exists t, expiresAt. cbn [timerTokens delay armedAt].
  unfold MAX_TIMEOUT, REFRESH_THRESHOLD_MS in *.
  repeat split; try reflexivity; try assumption; lia.
Qed.

(** The timers left by a commit that exposes a new pair were all armed by
    that commit, for that pair. *)
Lemma commit_arms (parseDate : string -> option Z) (now : Z) (s : State)
    (t : TokensData) (tm : Timer) :
  timerInv s -> queuedTokens s = Some (Val t) ->
  In tm (timers (commit parseDate now s)) ->
  exists id ms, tm = mkTimer id now ms (Val t) /\
                scheduling parseDate t now = RefreshIn ms.
Proof.
  intros Hinv Hq. rewrite (commit_new_tokens parseDate now s t Hq).
  set (s0 := with_exposed (Val t)
               (match queuedUser s with Some v => v | None => currentUser s end) s).
  assert (Hinv0 : timerInv s0)
    by (eapply sameTimers_timerInv; [|exact Hinv]; split; reflexivity).
  destruct (cancelRefreshTimer_clears s0 Hinv0) as [Hct _].
  rewrite scheduleTokenRefresh_cases.
  destruct (scheduling parseDate t now) as [| |ms] eqn:Hs.
  - rewrite Hct. intros [].
  - destruct (refreshToken_timers (Val t) (cancelRefreshTimer s0)) as [E _].
    rewrite E, Hct. intros [].
  - cbn. rewrite Hct. intros [<- | []].
    eexists. eexists. split; reflexivity.
Qed.

Section Invariants.

Variable parseDate : string -> option Z.
Variable p : Props.

Lemma step_never_back_to_undefined (now : Z) (e : Event) (s s' : State) :
  quiescent s -> timerInv s -> step parseDate p now e s = Some s' ->
  (tokens s <> Undefined -> tokens s' <> Undefined) /\
  (currentUser s <> Undefined -> currentUser s' <> Undefined).
Proof.
  intros Hq Hinv Hstep.
  destruct (step_segment parseDate p now e s s' Hq Hinv Hstep)
    as [s1 ((_ & _ & Ht & Hu & Hqt & Hqu & _) & _ & ->)].
  destruct (commit_exposed parseDate now s1) as (A & B & _).
  rewrite A, B. split; intros Hne.
  - destruct (queuedTokens s1) as [v|]; [|congruence].
    intros ->. apply Hqt. reflexivity.
  - destruct (queuedUser s1) as [v|]; [|congruence].
    intros ->. apply Hqu. reflexivity.
Qed.

Lemma step_timers_cases (now : Z) (e : Event) (s s' : State) :
  quiescent s -> timerInv s -> step parseDate p now e s = Some s' ->
  (incl (timers s') (timers s) /\ (tokens s' = Null \/ tokens s' = tokens s)) \/
  (exists t, tokens s' = Val t /\
     forall tm, In tm (timers s') ->
       exists id ms, tm = mkTimer id now ms (Val t) /\
                     scheduling parseDate t now = RefreshIn ms).
Proof.
  intros Hq Hinv Hstep.
  destruct (step_segment parseDate p now e s s' Hq Hinv Hstep)
    as [s1 ((Hincl & _ & Ht & _ & Hqt & _ & _) & Hinv1 & ->)].
  destruct (commit_exposed parseDate now s1) as (A & _).
  destruct (queuedTokens s1) as [[| |t]|] eqn:E.
  - exfalso. apply Hqt. reflexivity.
  - left. split; [|left; exact A].
    rewrite (commit_cleared_tokens parseDate now s1 E). exact Hincl.
  - right. exists t. split; [exact A|].
    intros tm. apply commit_arms; assumption.
  - left. split; [|right; congruence].
    destruct (commit_without_token_update parseDate now s1 E) as (B & _).
    rewrite B. exact Hincl.
Qed.

End Invariants.

(** X1. Once a value of the pair has been resolved it never becomes
    [undefined] again: no step of a reachable state takes [tokens] or
    [currentUser] from [null] or a value back to [undefined]. *)
Theorem resolved_values_stay_resolved
    (parseDate : string -> option Z) (p : Props) (now : Z) (e : Event) (s s' : State) :
  reachable parseDate p s ->
  step parseDate p now e s = Some s' ->
  (tokens s <> Undefined -> tokens s' <> Undefined) /\
  (currentUser s <> Undefined -> currentUser s' <> Undefined).
Proof.
  intros Hr Hstep.
  eapply step_never_back_to_undefined; [| |exact Hstep].
  - eapply reachable_quiescent. exact Hr.
  - eapply reachable_timerInv. exact Hr.
Qed.

(** X2. Every refresh timer pending in a reachable state was armed for a
    pair whose expiry parses; its delay lies in [0, MAX_TIMEOUT), it is
    due at the later of its arming time and the refresh deadline
    [expiresAt - REFRESH_THRESHOLD_MS], and it is due before the expiry. *)
Theorem pending_timers_are_sound
    (parseDate : string -> option Z) (p : Props) (s : State) (tm : Timer) :
  reachable parseDate p s ->
  In tm (timers s) ->
  timerSound parseDate tm.
Proof.
  intros Hr. revert tm.
  induction Hr as [|s s' now e Hr IH Hstep]; intros tm Hin.
  - destruct Hin.
  - destruct (step_timers_cases parseDate p now e s s'
                (reachable_quiescent parseDate p s Hr)
                (reachable_timerInv parseDate p s Hr) Hstep)
      as [[Hincl _] | [t [_ Hnew]]].
    + apply IH, Hincl, Hin.
    + destruct (Hnew tm Hin) as [id [ms [-> Hs]]].
      apply scheduling_RefreshIn_sound. exact Hs.
Qed.

(** X3. A pending refresh timer belongs to the exposed pair: in every
    reachable state the [tokens] a pending timer closed over are the
    exposed [tokens], unless the session has been cleared ([tokens] is
    [null]) since the timer was armed. *)
Theorem pending_timer_is_for_exposed_tokens
    (parseDate : string -> option Z) (p : Props) (s : State) (tm : Timer) :
  reachable parseDate p s ->
  In tm (timers s) ->
  timerTokens tm = tokens s \/ tokens s = Null.
Proof.
  intros Hr. revert tm.
  induction Hr as [|s s' now e Hr IH Hstep]; intros tm Hin.
  - destruct Hin.
  - destruct (step_timers_cases parseDate p now e s s'
                (reachable_quiescent parseDate p s Hr)
                (reachable_timerInv parseDate p s Hr) Hstep)
      as [[Hincl [Hnull | Hsame]] | [t [Ht Hnew]]].
    + right. exact Hnull.
    + rewrite Hsame. apply IH, Hincl, Hin.
    + destruct (Hnew tm Hin) as [id [ms [-> _]]].
      left. rewrite Ht. reflexivity.
Qed.

(** X4. The provider never asks the backend to refresh without a refresh
    token: every [POST /v3/auth/refresh] sent on the way to a reachable
    state carries a non-empty token. *)
Theorem refresh_requests_carry_a_token
    (parseDate : string -> option Z) (p : Props) (s : State) (r : string) :
  reachable parseDate p s ->
  In (PostRefresh r) (requests s) ->
  r <> "".
Proof.
  intros Hr. revert r.
  induction Hr as [|s s' now e Hr IH Hstep]; intros r Hin.
  - destruct Hin.
  - destruct (step_segment parseDate p now e s s'
                (reachable_quiescent parseDate p s Hr)
                (reachable_timerInv parseDate p s Hr) Hstep)
      as [s1 ((_ & _ & _ & _ & _ & _ & Hreq) & _ & ->)].
    destruct (commit_traffic parseDate now s1)
      as [[_ E] | [t [r' (_ & Hheld & _ & E)]]]; rewrite E in Hin.
    + destruct (Hreq r Hin) as [Hold | Hne]; [apply IH, Hold | exact Hne].
    + apply in_app_or in Hin. destruct Hin as [Hin | [Hin | []]].
      * destruct (Hreq r Hin) as [Hold | Hne]; [apply IH, Hold | exact Hne].
      * injection Hin as <-. eapply heldRefreshToken_nonempty. exact Hheld.
Qed.

(** X5. Unmounting leaves no refresh timer behind: the clean-up of the
    mount effect, run in any reachable state, clears the pending timer
    and changes nothing else (the ref keeps the stale id). *)
Theorem unmount_clears_pending_timer
    (parseDate : string -> option Z) (p : Props) (s : State) :
  reachable parseDate p s ->
  timers (unmountCleanup s) = [] /\
  unmountCleanup s = with_timers [] (nextTimerId s) s.
Proof.
  intros Hr. apply reachable_timerInv in Hr.
  unfold unmountCleanup, clearTimeout.
  destruct Hr as [Hnil | [t [Hone Href]]].
  - destruct (refreshTimerRef s); rewrite ?Hnil; cbn; split; try reflexivity;
      try assumption.
    destruct s; cbn in *; subst; reflexivity.
  - rewrite Href, Hone. cbn. rewrite Nat.eqb_refl. cbn. split; reflexivity.
Qed.

(** ** The operations, end to end *)

Lemma resumeTask_last (s : State) (l : list Task) (k : Task) :
  inflight s = l ++ [k] ->
  resumeTask (List.length l) s = Some (k, with_inflight l s).
Proof.
  intros H. unfold resumeTask. rewrite H.
  rewrite nth_error_app2 by lia. rewrite Nat.sub_diag. cbn [nth_error].
  rewrite firstn_app, firstn_all, Nat.sub_diag. cbn [firstn].
  rewrite skipn_app.
  replace (S (List.length l) - List.length l)%nat with 1%nat by lia.
  rewrite skipn_all2 by lia. cbn [skipn app].
  rewrite !app_nil_r. reflexivity.
Qed.

(** X6. A login that goes through.  From a state in which nobody is
    logged in, the call, the backend's tokens and the identity answer
    lead to a state that exposes exactly the pair the backend sent and the
    user built from the identity payload (name from [displayName], e-mail
    [''] when missing); the observer, if any, hears of the new pair once;
    the backend has been sent the credentials, then [GET /v1/users/me]
    with the new access token, and after that at most one refresh
    request. *)
Theorem login_success_authenticates
    (parseDate : string -> option Z) (p : Props) (t1 t2 t3 : Z)
    (c : Credentials) (d : AuthPayload) (u : UserPayload) (s : State) :
  mounted s = true ->
  currentUser s = Null ->
  quiescent s ->
  exists s',
    run parseDate p
        [(t1, CallLogin c);
         (t2, LoginResponse (List.length (inflight s)) (Ok d));
         (t3, UserResponse (List.length (inflight s)) (Ok u))] s = Some s' /\
    tokens s' = Val (tokensOfPayload d) /\
    currentUser s' =
      Val (mkUser (payload_userId u) (displayName u)
                  (match payload_email u with Some e => e | None => "" end)) /\
    authChanges s' =
      authChanges s ++ (if onAuthChange p then [Some (tokensOfPayload d)] else []) /\
    exists extra,
      requests s' = requests s ++ [PostLogin c; GetMe (accessToken d)] ++ extra /\
      (extra = [] \/ exists r, extra = [PostRefresh r]).
Proof.
  intros Hm Hu [Hqt Hqu].
  set (s1 := fetcher (PostLogin c) LoginAwaitResponse s).
  assert (H1 : step parseDate p t1 (CallLogin c) s = Some s1).
  { cbn [step]. rewrite Hm. unfold callLogin, login. rewrite Hu. cbn.
    rewrite commit_quiescent_id by (split; assumption). reflexivity. }
  set (s2 := loadUserInfo (access (tokensOfPayload d)) (LoginAwaitUser (tokensOfPayload d))
               (with_inflight (inflight s) s1)).
  assert (H2 : step parseDate p t2 (LoginResponse (List.length (inflight s)) (Ok d)) s1 = Some s2).
  { cbn [step]. rewrite (resumeTask_last s1 (inflight s) LoginAwaitResponse eq_refl).
    cbn [login_response fst].
    rewrite commit_quiescent_id by (split; assumption). reflexivity. }
  set (s3 := notifyAuthChange p (Some (tokensOfPayload d))
               (setCurrentUser
                  (Val (mkUser (payload_userId u) (displayName u)
                          (match payload_email u with Some e => e | None => "" end)))
                  (setTokens (Val (tokensOfPayload d))
                     (with_inflight (inflight s) s2)))).
  assert (H3 : step parseDate p t3 (UserResponse (List.length (inflight s)) (Ok u)) s2
               = Some (commit parseDate t3 s3)).
  { cbn [step]. rewrite (resumeTask_last s2 (inflight s) _ eq_refl).
    reflexivity. }
  exists (commit parseDate t3 s3).
  split; [cbn [run]; rewrite H1, H2, H3; reflexivity|].
  assert (Hq3 : queuedTokens s3 = Some (Val (tokensOfPayload d)) /\
                queuedUser s3 =
                  Some (Val (mkUser (payload_userId u) (displayName u)
                               (match payload_email u with Some e => e | None => "" end))) /\
                requests s3 = requests s ++ [PostLogin c; GetMe (accessToken d)] /\
                authChanges s3 =
                  authChanges s ++
                  (if onAuthChange p then [Some (tokensOfPayload d)] else [])).
  { unfold s3, notifyAuthChange. destruct (onAuthChange p); cbn;
      rewrite <- ?app_assoc, ?app_nil_r; repeat split; reflexivity. }
  destruct Hq3 as (Hq3t & Hq3u & Hr3 & Ha3).
  destruct (commit_exposed parseDate t3 s3) as (A & B & _).
  rewrite Hq3t in A. rewrite Hq3u in B.
  split; [exact A|]. split; [exact B|].
  split; [rewrite commit_authChanges; exact Ha3|].
  destruct (commit_traffic parseDate t3 s3) as [[_ E] | [t [r (_ & _ & _ & E)]]];
    rewrite E, Hr3.
  - exists []. rewrite app_nil_r. split; [reflexivity | left; reflexivity].
  - exists [PostRefresh r]. rewrite <- app_assoc.
    split; [reflexivity | right; exists r; reflexivity].
Qed.

Lemma resumeTask_head (s : State) (l : list Task) (k : Task) :
  inflight s = k :: l -> resumeTask 0 s = Some (k, with_inflight l s).
Proof.
  intros H. unfold resumeTask. rewrite H. reflexivity.
Qed.

Lemma commit_cleared (parseDate : string -> option Z) (now : Z) (s : State) :
  commit parseDate now (clearAuthState s) = with_exposed Null Null s.
Proof.
  rewrite commit_cleared_tokens by reflexivity. reflexivity.
Qed.

(** X7. A login that fails after its guard — the backend rejects the
    credentials, the request throws, or the identity fetch fails — is
    rejected with the backend's message, the thrown error, or "Error
    fetching user info", and leaves the session Unauthenticated whatever
    it was; the failing step sends nothing, calls no observer and touches
    no timer. *)
Theorem failed_login_clears_session
    (parseDate : string -> option Z) (p : Props) (now : Z) (n : nat) (s s0 : State) :
  (forall (r : Fetched AuthPayload) (message : string),
     resumeTask n s = Some (LoginAwaitResponse, s0) ->
     r = NotOk message \/ r = Threw message ->
     snd (login_response r s0) = Rejected message /\
     exists s',
       step parseDate p now (LoginResponse n r) s = Some s' /\
       Unauthenticated s' /\
       requests s' = requests s /\ authChanges s' = authChanges s /\
       timers s' = timers s /\ inflight s' = inflight s0) /\
  (forall (r : Fetched UserPayload) (newTokens : TokensData),
     resumeTask n s = Some (LoginAwaitUser newTokens, s0) ->
     loadUserInfo_result r = None ->
     snd (login_user p newTokens r s0) = Rejected "Error fetching user info" /\
     exists s',
       step parseDate p now (UserResponse n r) s = Some s' /\
       Unauthenticated s' /\
       requests s' = requests s /\ authChanges s' = authChanges s /\
       timers s' = timers s /\ inflight s' = inflight s0).
Proof.
  split.
  - intros r message Htask Hr. cbn [step]. rewrite Htask.
    apply resumeTask_frame in Htask. destruct Htask as [_ ->].
    assert (E : login_response r
                  (with_inflight (firstn n (inflight s) ++ skipn (S n) (inflight s)) s)
                = (clearAuthState
                     (with_inflight (firstn n (inflight s) ++ skipn (S n) (inflight s)) s),
                   Rejected message))
      by (destruct Hr as [-> | ->]; reflexivity).
    rewrite E. split; [reflexivity|].
    eexists. split; [reflexivity|]. cbn [fst]. rewrite commit_cleared.
    repeat split; reflexivity.
  - intros r newTokens Htask Hr. cbn [step]. rewrite Htask.
    apply resumeTask_frame in Htask. destruct Htask as [_ ->].
    unfold login_user. rewrite Hr. split; [reflexivity|].
    eexists. split; [reflexivity|]. cbn [fst]. rewrite commit_cleared.
    repeat split; reflexivity.
Qed.

(** X8. The guard of [login].  Called from a render whose [currentUser]
    is [null], [login] sends the credentials and changes nothing that is
    exposed.  Called from any other render ([currentUser] a user, or still
    [undefined]) it sends nothing, is rejected with "User is already
    logged in", and leaves the session Unauthenticated without calling the
    observer. *)
Theorem login_guard
    (parseDate : string -> option Z) (now : Z) (c : Credentials) (s : State) :
  quiescent s ->
  (currentUser s = Null ->
     callLogin parseDate now c s = (fetcher (PostLogin c) LoginAwaitResponse s, Pending)) /\
  (currentUser s <> Null ->
     snd (callLogin parseDate now c s) = Rejected "User is already logged in" /\
     Unauthenticated (fst (callLogin parseDate now c s)) /\
     requests (fst (callLogin parseDate now c s)) = requests s /\
     inflight (fst (callLogin parseDate now c s)) = inflight s /\
     authChanges (fst (callLogin parseDate now c s)) = authChanges s /\
     timers (fst (callLogin parseDate now c s)) = timers s).
Proof.
  intros Hq. split; intros Hu; unfold callLogin, login.
  - rewrite Hu. cbn [is_null negb].
    rewrite commit_quiescent_id by exact Hq. reflexivity.
  - assert (E : is_null (currentUser s) = false)
      by (destruct (currentUser s); try reflexivity; congruence).
    rewrite E. cbn [negb fst snd]. rewrite commit_cleared.
    repeat split; reflexivity.
Qed.

(** X9. Cold start without tokens.  When [initialTokens] is absent the
    mount alone settles the session as Unauthenticated; when it is a
    promise that resolves to [null] or rejects, the session is Unresolved
    until the promise settles and Unauthenticated after.  Neither path
    sends a request, leaves a call suspended, arms a timer or calls the
    observer. *)
Theorem cold_start_without_tokens
    (parseDate : string -> option Z) (p : Props) (t0 t1 : Z) :
  (initialTokens p = NotProvided ->
     exists s',
       step parseDate p t0 Mount initialState = Some s' /\
       Unauthenticated s' /\
       requests s' = [] /\ inflight s' = [] /\ timers s' = [] /\ authChanges s' = []) /\
  (forall q,
     initialTokens p = Deferred q ->
     q = ResolvesTo None \/ (exists e, q = Rejects e) ->
     exists s1 s',
       step parseDate p t0 Mount initialState = Some s1 /\
       Unresolved s1 /\
       step parseDate p t1 (InitialTokensResolve 0) s1 = Some s' /\
       Unauthenticated s' /\
       requests s' = [] /\ inflight s' = [] /\ timers s' = [] /\ authChanges s' = []).
Proof.
  split.
  - intros Hp. cbn [step initialState mounted]. unfold loadInitialTokens. rewrite Hp.
    eexists. split; [reflexivity|]. rewrite commit_cleared.
    repeat split; reflexivity.
  - intros q Hp Hq. cbn [step initialState mounted]. unfold loadInitialTokens. rewrite Hp.
    rewrite commit_quiescent_id by (split; reflexivity).
    eexists. eexists. split; [reflexivity|]. split; [split; reflexivity|].
    cbn. unfold loadInitialTokens_resolved, resolvedInitialTokens. rewrite Hp.
    assert (E : match q with
                | ResolvesTo None => true
                | ResolvesTo (Some _) => false
                | Rejects _ => true
                end = true)
      by (destruct Hq as [-> | [e ->]]; reflexivity).
    destruct q as [[t|]|e]; try discriminate;
      (split; [reflexivity|]); rewrite commit_cleared; repeat split; reflexivity.
Qed.

(** X10. Cold start with tokens.  When [initialTokens] is, or resolves to,
    a pair, the identity is fetched with its access token and the answer
    settles the session: the supplied pair with the user from the payload
    when the fetch succeeds, Unauthenticated when it fails in any way.
    The observer is not called on either path. *)
Theorem cold_start_with_tokens
    (parseDate : string -> option Z) (p : Props) (t0 t1 t2 : Z)
    (t : TokensData) (r : Fetched UserPayload) :
  initialTokens p <> NotProvided ->
  resolvedInitialTokens p = ResolvesTo (Some t) ->
  exists s',
    run parseDate p
        [(t0, Mount); (t1, InitialTokensResolve 0); (t2, UserResponse 0 r)]
        initialState = Some s' /\
    match loadUserInfo_result r with
    | Some userData => tokens s' = Val t /\ currentUser s' = Val userData
    | None => Unauthenticated s'
    end /\
    authChanges s' = [] /\
    hd_error (requests s') = Some (GetMe (access t)).
Proof.
  intros Hp Hres.
  set (s1 := suspend InitAwaitTokens (with_mounted true initialState)).
  assert (H1 : step parseDate p t0 Mount initialState = Some s1).
  { cbn [step initialState mounted]. unfold loadInitialTokens.
    destruct (initialTokens p); [congruence| |];
      rewrite commit_quiescent_id by (split; reflexivity); reflexivity. }
  set (pre2 := loadUserInfo (access t) (InitAwaitUser t)
                 (setTokens (Val t) (with_inflight [] s1))).
  assert (H2 : step parseDate p t1 (InitialTokensResolve 0) s1
               = Some (commit parseDate t1 pre2)).
  { cbn [step]. rewrite (resumeTask_head s1 [] InitAwaitTokens eq_refl).
    unfold loadInitialTokens_resolved. rewrite Hres. reflexivity. }
  assert (Ht2 : tokens (commit parseDate t1 pre2) = Val t)
    by exact (proj1 (commit_exposed parseDate t1 pre2)).
  assert (Hqt2 : queuedTokens (commit parseDate t1 pre2) = None)
    by exact (proj1 (proj2 (proj2 (commit_exposed parseDate t1 pre2)))).
  assert (Ha2 : authChanges (commit parseDate t1 pre2) = [])
    by (rewrite commit_authChanges; reflexivity).
  assert (Htr : exists rest extra,
             inflight (commit parseDate t1 pre2) = InitAwaitUser t :: rest /\
             requests (commit parseDate t1 pre2) = GetMe (access t) :: extra).
  { destruct (commit_traffic parseDate t1 pre2)
      as [[Ei Er] | [t' [r' (_ & _ & Ei & Er)]]];
      rewrite Ei, Er; eexists; eexists; split; reflexivity. }
  destruct Htr as [rest [extra [Hi2 Hr2]]].
  remember (commit parseDate t1 pre2) as s2 eqn:Es2. clear Es2.
  assert (H3 : step parseDate p t2 (UserResponse 0 r) s2
               = Some (commit parseDate t2
                         (loadInitialTokens_user r (with_inflight rest s2)))).
  { cbn [step]. rewrite (resumeTask_head s2 rest _ Hi2). reflexivity. }
  eexists. split; [cbn [run]; rewrite H1, H2, H3; reflexivity|].
  unfold loadInitialTokens_user.
  destruct (loadUserInfo_result r) as [userData|].
  - destruct (commit_exposed parseDate t2
                (setCurrentUser (Val userData) (with_inflight rest s2)))
      as (A & B & _).
    change (tokens (commit parseDate t2
                      (setCurrentUser (Val userData) (with_inflight rest s2)))
            = match queuedTokens s2 with Some v => v | None => tokens s2 end) in A.
    rewrite Hqt2, Ht2 in A.
    split; [split; [exact A | exact B]|].
    rewrite commit_authChanges. cbn. split; [exact Ha2|].
    destruct (commit_traffic parseDate t2
                (setCurrentUser (Val userData) (with_inflight rest s2)))
      as [[_ Er] | [t' [r' (_ & _ & _ & Er)]]]; rewrite Er; cbn; rewrite Hr2; reflexivity.
  - rewrite commit_cleared. cbn.
    split; [split; reflexivity|]. split; [exact Ha2|]. rewrite Hr2. reflexivity.
Qed.

Lemma commit_arms_exact (parseDate : string -> option Z) (now : Z) (s : State)
    (t : TokensData) (ms : Z) :
  timerInv s -> queuedTokens s = Some (Val t) ->
  scheduling parseDate t now = RefreshIn ms ->
  exists id,
    timers (commit parseDate now s) = [mkTimer id now ms (Val t)] /\
    refreshTimerRef (commit parseDate now s) = Some id.
Proof.
  intros Hinv Hq Hs. rewrite (commit_new_tokens parseDate now s t Hq).
  set (s0 := with_exposed (Val t)
               (match queuedUser s with Some v => v | None => currentUser s end) s).
  assert (Hinv0 : timerInv s0)
    by (eapply sameTimers_timerInv; [|exact Hinv]; split; reflexivity).
  destruct (cancelRefreshTimer_clears s0 Hinv0) as [Hct _].
  rewrite scheduleTokenRefresh_cases, Hs. cbn. rewrite Hct.
  eexists. split; reflexivity.
Qed.

(** X11. A refresh that succeeds replaces the pair and nothing else of
    the session: [tokens] becomes the pair the backend sent, [currentUser]
    is left as it was, the observer hears of the new pair once.  The timer
    that was pending is gone, the scheduler runs against the new expiry,
    and when that gives a delay exactly one timer, armed now for the new
    pair, is pending. *)
Theorem refresh_success_replaces_tokens
    (parseDate : string -> option Z) (p : Props) (now : Z) (n : nat)
    (d : AuthPayload) (s s0 : State) :
  quiescent s ->
  timerInv s ->
  resumeTask n s = Some (RefreshAwaitResponse, s0) ->
  exists s',
    step parseDate p now (RefreshResponse n (Ok d)) s = Some s' /\
    tokens s' = Val (tokensOfPayload d) /\
    currentUser s' = currentUser s /\
    authChanges s' =
      authChanges s ++ (if onAuthChange p then [Some (tokensOfPayload d)] else []) /\
    (forall tm, In tm (timers s') ->
       exists id ms, tm = mkTimer id now ms (Val (tokensOfPayload d)) /\
                     scheduling parseDate (tokensOfPayload d) now = RefreshIn ms) /\
    (forall ms, scheduling parseDate (tokensOfPayload d) now = RefreshIn ms ->
       exists id, timers s' = [mkTimer id now ms (Val (tokensOfPayload d))] /\
                  refreshTimerRef s' = Some id).
Proof.
  intros [Hqt Hqu] Hinv Htask. cbn [step]. rewrite Htask.
  pose proof (resumeTask_sameTimers _ _ _ _ Htask) as Hs0.
  apply resumeTask_frame in Htask. destruct Htask as [_ ->].
  unfold refreshResponse. cbn [refreshToken_resume fst].
  match goal with
  | |- context [commit parseDate now ?x] => set (s1 := x)
  end.
  assert (Hs1 : sameTimers s s1).
  { eapply sameTimers_trans; [exact Hs0|].
    eapply sameTimers_trans; [|apply notifyAuthChange_sameTimers]. split; reflexivity. }
  assert (Hinv1 : timerInv s1) by (eapply sameTimers_timerInv; eassumption).
  assert (Hfacts : queuedTokens s1 = Some (Val (tokensOfPayload d)) /\
                   queuedUser s1 = None /\ currentUser s1 = currentUser s /\
                   authChanges s1 =
                     authChanges s ++
                     (if onAuthChange p then [Some (tokensOfPayload d)] else [])).
  { unfold s1, notifyAuthChange. destruct (onAuthChange p); cbn;
      rewrite ?app_nil_r; repeat split; try reflexivity; assumption. }
  destruct Hfacts as (Hq1 & Hu1 & Hc1 & Ha1).
  clearbody s1.
  eexists. split; [reflexivity|].
  destruct (commit_exposed parseDate now s1) as (A & B & _).
  rewrite Hq1 in A. rewrite Hu1, Hc1 in B.
  split; [exact A|]. split; [exact B|].
  split; [rewrite commit_authChanges; exact Ha1|].
  split.
  - intros tm. apply commit_arms; assumption.
  - intros ms. apply commit_arms_exact; assumption.
Qed.

(** X12. A refresh timer that fires is consumed and starts at most one
    refresh: no timer is pending after the step, the exposed pair and the
    observer history are untouched, and the backend is sent the refresh
    token of the pair the timer was armed for (nothing when that pair has
    no refresh token). *)
Theorem timer_fires_once
    (parseDate : string -> option Z) (p : Props) (now : Z) (id : nat)
    (tm : Timer) (s : State) :
  reachable parseDate p s ->
  findTimer id s = Some tm ->
  armedAt tm + delay tm <= now ->
  exists s',
    step parseDate p now (TimerFires id) s = Some s' /\
    timers s' = [] /\
    tokens s' = tokens s /\ currentUser s' = currentUser s /\
    authChanges s' = authChanges s /\
    match heldRefreshToken (timerTokens tm) with
    | Some r => requests s' = requests s ++ [PostRefresh r] /\
                inflight s' = inflight s ++ [RefreshAwaitResponse]
    | None => requests s' = requests s /\ inflight s' = inflight s
    end.
Proof.
  intros Hr Hfind Hdue.
  destruct (reachable_quiescent parseDate p s Hr) as [Hqt Hqu].
  destruct (findTimer_fired id s tm (reachable_timerInv parseDate p s Hr) Hfind)
    as [_ Hnone].
  cbn [step]. rewrite Hfind.
  destruct (Z.leb_spec (armedAt tm + delay tm) now) as [_ | Hlt]; [|lia].
  eexists. split; [reflexivity|].
  unfold refreshToken.
  destruct (heldRefreshToken (timerTokens tm)) as [r|]; cbn [fst];
    rewrite commit_quiescent_id by (split; assumption);
    cbn; rewrite ?Hnone; repeat split; try reflexivity.
  all: unfold clearTimeout in Hnone; cbn in Hnone; exact Hnone.
Qed.

(** X13. A logout that passes its guard clears the pair and tells the
    observer, and that is all it does: it sends nothing to the backend,
    and it neither cancels the pending refresh timer nor drops the calls
    that are in flight. *)
Theorem logout_leaves_timer_and_calls
    (parseDate : string -> option Z) (p : Props) (now : Z) (s : State) :
  is_null (currentUser s) = false ->
  let after := callLogout parseDate p now s in
  snd after = Fulfilled /\
  Unauthenticated (fst after) /\
  authChanges (fst after) = authChanges s ++ (if onAuthChange p then [None] else []) /\
  requests (fst after) = requests s /\
  inflight (fst after) = inflight s /\
  timers (fst after) = timers s /\
  refreshTimerRef (fst after) = refreshTimerRef s.
Proof.
  intros Hu. cbv zeta.
  rewrite (logout_clears_when_user_not_null parseDate p now s Hu).
  unfold notifyAuthChange. destruct (onAuthChange p); cbn;
    rewrite ?app_nil_r; repeat split; reflexivity.
Qed.

(** * Properties of the matches table *)

Lemma fetchLoop_paged (fuel : nat) :
  forall (pre rest acc : list Matches.Match) (k : nat),
    List.length pre = (k * Matches.batchSize)%nat ->
    (List.length rest < fuel * Matches.batchSize)%nat ->
    Matches.fetchLoop fuel (Matches.paged (pre ++ rest)) k acc
    = Some (Matches.Returned (acc ++ rest)).
Proof.
  induction fuel as [|fuel IH]; intros pre rest acc k Hpre Hfuel.
  - cbn in Hfuel. lia.
  - cbn [Matches.fetchLoop]. unfold Matches.paged at 1.
    rewrite skipn_app, <- Hpre, skipn_all, Nat.sub_diag. cbn [skipn app].
    destruct (Nat.ltb_spec (List.length (firstn Matches.batchSize rest))
                Matches.batchSize) as [Hshort | Hfull].
    + rewrite firstn_all2; [reflexivity|].
      rewrite length_firstn in Hshort. lia.
    + rewrite length_firstn in Hfull.
      replace (pre ++ rest)
        with ((pre ++ firstn Matches.batchSize rest) ++ skipn Matches.batchSize rest)
        by (rewrite <- app_assoc, firstn_skipn; reflexivity).
      rewrite IH.
      * rewrite <- app_assoc, firstn_skipn. reflexivity.
      * rewrite length_app, length_firstn, Hpre. lia.
      * rewrite length_skipn. unfold Matches.batchSize in *. lia.
Qed.

Lemma fetchLoop_paged_starved (fuel : nat) :
  forall (pre rest acc : list Matches.Match) (k : nat),
    List.length pre = (k * Matches.batchSize)%nat ->
    (fuel * Matches.batchSize <= List.length rest)%nat ->
    Matches.fetchLoop fuel (Matches.paged (pre ++ rest)) k acc = None.
Proof.
  induction fuel as [|fuel IH]; intros pre rest acc k Hpre Hfuel.
  - reflexivity.
  - cbn [Matches.fetchLoop]. unfold Matches.paged at 1.
    rewrite skipn_app, <- Hpre, skipn_all, Nat.sub_diag. cbn [skipn app].
    destruct (Nat.ltb_spec (List.length (firstn Matches.batchSize rest))
                Matches.batchSize) as [Hshort | Hfull].
    + rewrite length_firstn in Hshort. unfold Matches.batchSize in *. lia.
    + replace (pre ++ rest)
        with ((pre ++ firstn Matches.batchSize rest) ++ skipn Matches.batchSize rest)
        by (rewrite <- app_assoc, firstn_skipn; reflexivity).
      apply IH.
      * rewrite length_firstn in Hfull.
        rewrite length_app, length_firstn, Hpre. lia.
      * rewrite length_skipn. unfold Matches.batchSize in *. lia.
Qed.

(** X14. Paging reassembles the list.  Against a backend that serves a
    list of matches ten a page, [fetchAllMatches] returns exactly that
    list, in order, and it does so with the request number
    [length / 10 + 1] (one more, empty, page is fetched when the length is
    a multiple of ten): with fewer requests the loop has not ended. *)
Theorem fetchAllMatches_reassembles (all : list Matches.Match) (fuel : nat) :
  ((List.length all < fuel * Matches.batchSize)%nat ->
     Matches.fetchAllMatches fuel (Matches.paged all) = Some (Matches.Returned all)) /\
  ((fuel * Matches.batchSize <= List.length all)%nat ->
     Matches.fetchAllMatches fuel (Matches.paged all) = None).
Proof.
  unfold Matches.fetchAllMatches. split; intros H.
  - apply (fetchLoop_paged fuel [] all [] 0%nat); [reflexivity | exact H].
  - apply (fetchLoop_paged_starved fuel [] all [] 0%nat); [reflexivity | exact H].
Qed.

Lemma fetchLoop_first_failure (k : nat) :
  forall (backend : nat -> Fetched (list Matches.Match)) (message : string)
         (start fuel : nat) (acc : list Matches.Match),
    (forall j, (start <= j < start + k)%nat ->
       exists l, backend j = Ok l /\ (Matches.batchSize <= List.length l)%nat) ->
    backend (start + k)%nat = NotOk message \/ backend (start + k)%nat = Threw message ->
    (k < fuel)%nat ->
    Matches.fetchLoop fuel backend start acc = Some (Matches.Thrown message).
Proof.
  induction k as [|k IH]; intros backend message start fuel acc Hfull Hfail Hfuel.
  - destruct fuel as [|fuel]; [lia|]. cbn [Matches.fetchLoop].
    rewrite Nat.add_0_r in Hfail. destruct Hfail as [-> | ->]; reflexivity.
  - destruct fuel as [|fuel]; [lia|]. cbn [Matches.fetchLoop].
    destruct (Hfull start) as [l [-> Hlen]]; [lia|].
    destruct (Nat.ltb_spec (List.length l) Matches.batchSize); [lia|].
    apply IH.
    + intros j Hj. apply Hfull. lia.
    + replace (S start + k)%nat with (start + S k)%nat by lia. exact Hfail.
    + lia.
Qed.

(** X15. A failing page aborts the download.  When the pages before page
    [k] are full and page [k] is rejected or its request throws,
    [fetchAllMatches] throws that page's message: the matches already
    collected are not returned. *)
Theorem fetchAllMatches_first_failure
    (backend : nat -> Fetched (list Matches.Match)) (message : string) (k fuel : nat) :
  (forall j, (j < k)%nat ->
     exists l, backend j = Ok l /\ (Matches.batchSize <= List.length l)%nat) ->
  backend k = NotOk message \/ backend k = Threw message ->
  (k < fuel)%nat ->
  Matches.fetchAllMatches fuel backend = Some (Matches.Thrown message).
Proof.
  intros Hfull Hfail Hfuel. unfold Matches.fetchAllMatches.
  apply (fetchLoop_first_failure k); try assumption.
  intros j Hj. apply Hfull. lia.
Qed.

Lemma fetchLoop_full_pages (fuel : nat) :
  forall (backend : nat -> Fetched (list Matches.Match)) (start : nat)
         (acc : list Matches.Match),
    (forall j, exists l, backend j = Ok l /\ (Matches.batchSize <= List.length l)%nat) ->
    Matches.fetchLoop fuel backend start acc = None.
Proof.
  induction fuel as [|fuel IH]; intros backend start acc Hfull; [reflexivity|].
  cbn [Matches.fetchLoop].
  destruct (Hfull start) as [l [-> Hlen]].
  destruct (Nat.ltb_spec (List.length l) Matches.batchSize); [lia|].
  apply IH. exact Hfull.
Qed.

(** X16. The loop ends only on a short or failing page: against a
    backend that answers every page with ten matches or more (one that
    ignores the page number, say) [fetchAllMatches] has not returned after
    any number of requests. *)
Theorem fetchAllMatches_needs_a_short_page
    (backend : nat -> Fetched (list Matches.Match)) (fuel : nat) :
  (forall j, exists l, backend j = Ok l /\ (Matches.batchSize <= List.length l)%nat) ->
  Matches.fetchAllMatches fuel backend = None.
Proof.
  intros Hfull. apply fetchLoop_full_pages. exact Hfull.
Qed.

Lemma append_assoc (a b c : string) :
  ((a ++ b) ++ c)%string = (a ++ (b ++ c))%string.
Proof.
  induction a as [|x a IH]; [reflexivity|].
  cbn [append]. rewrite IH. reflexivity.
Qed.

Lemma concat_snoc (sep : string) (l : list string) (x y : string) :
  String.concat sep ((x :: l) ++ [y])
  = (String.concat sep (x :: l) ++ sep ++ y)%string.
Proof.
  revert x. induction l as [|z l IH]; intros x.
  - reflexivity.
  - change (String.concat sep ((x :: z :: l) ++ [y]))
      with (x ++ sep ++ String.concat sep ((z :: l) ++ [y]))%string.
    rewrite IH.
    change (String.concat sep (x :: z :: l))
      with (x ++ sep ++ String.concat sep (z :: l))%string.
    rewrite !append_assoc. reflexivity.
Qed.

Lemma convertMatchesToCSV_snoc (ms : list Matches.Match) (m : Matches.Match) :
  Matches.convertMatchesToCSV (ms ++ [m])
  = (Matches.convertMatchesToCSV ms ++ Matches.newline ++ Matches.csvRow m)%string.
Proof.
  unfold Matches.convertMatchesToCSV. rewrite map_app. cbn [map].
  apply (concat_snoc Matches.newline (map Matches.csvRow ms)).
Qed.

(** X17. Exporting one more match appends one line: the CSV of a list
    extended by a match is the CSV of the list, a line feed, and the row
    of that match; the CSV of no matches is the header line alone. *)
Theorem convertMatchesToCSV_appends_rows (ms : list Matches.Match) (m : Matches.Match) :
  Matches.convertMatchesToCSV [] = Matches.csvHeaders /\
  Matches.convertMatchesToCSV (ms ++ [m])
  = (Matches.convertMatchesToCSV ms ++ Matches.newline ++ Matches.csvRow m)%string.
Proof.
  split; [reflexivity | apply convertMatchesToCSV_snoc].
Qed.

Lemma lineBreaks_app (a b : string) :
  Matches.lineBreaks (a ++ b)%string
  = (Matches.lineBreaks a + Matches.lineBreaks b)%nat.
Proof.
  induction a as [|c a IH]; [reflexivity|].
  cbn [append Matches.lineBreaks]. rewrite IH. lia.
Qed.

Lemma lineBreaks_concat (sep : string) (l : list string) :
  Matches.lineBreaks sep = 0%nat ->
  (forall x, In x l -> Matches.lineBreaks x = 0%nat) ->
  Matches.lineBreaks (String.concat sep l) = 0%nat.
Proof.
  intros Hsep. induction l as [|x l IH]; intros Hl; [reflexivity|].
  destruct l as [|y l].
  - apply Hl. left; reflexivity.
  - change (String.concat sep (x :: y :: l))
      with (x ++ sep ++ String.concat sep (y :: l))%string.
    rewrite !lineBreaks_app, Hsep.
    rewrite IH by (intros z Hz; apply Hl; right; exact Hz).
    rewrite (Hl x) by (left; reflexivity). reflexivity.
Qed.

Lemma teamPlayers_lineBreaks (i : nat) (m : Matches.Match) :
  (forall f, In f (Matches.rowTexts m) -> Matches.lineBreaks f = 0%nat) ->
  Matches.lineBreaks (Matches.teamPlayers i m) = 0%nat.
Proof.
  intros Hclean. unfold Matches.teamPlayers.
  destruct (nth_error (Matches.teams m) i) as [team|] eqn:E; [|reflexivity].
  apply lineBreaks_concat; [reflexivity|].
  intros x Hx. apply Hclean. unfold Matches.rowTexts.
  apply in_or_app. right. apply in_flat_map.
  exists team. split; [eapply nth_error_In; exact E | exact Hx].
Qed.

Lemma csvRow_lineBreaks (m : Matches.Match) :
  (forall f, In f (Matches.rowTexts m) -> Matches.lineBreaks f = 0%nat) ->
  Matches.lineBreaks (Matches.csvRow m) = 0%nat.
Proof.
  intros Hclean. unfold Matches.csvRow.
  apply lineBreaks_concat; [reflexivity|].
  intros x Hx. cbn [In] in Hx.
  destruct Hx as [<- | [<- | [<- | [<- | [<- | [<- | [<- | [<- | []]]]]]]]];
    try (apply Hclean; unfold Matches.rowTexts; cbn; tauto).
  - rewrite !lineBreaks_app, teamPlayers_lineBreaks by exact Hclean. reflexivity.
  - rewrite !lineBreaks_app, teamPlayers_lineBreaks by exact Hclean. reflexivity.
Qed.

(** X18. One line per match.  When no text of a match (its ids, sport,
    dates and player names) contains a line feed, the CSV has exactly as
    many line feeds as there are matches: the header line followed by one
    line for each match. *)
Theorem convertMatchesToCSV_line_count (ms : list Matches.Match) :
  (forall m f, In m ms -> In f (Matches.rowTexts m) -> Matches.lineBreaks f = 0%nat) ->
  Matches.lineBreaks (Matches.convertMatchesToCSV ms) = List.length ms.
Proof.
  induction ms as [|m ms IH] using rev_ind; intros Hclean; [reflexivity|].
  rewrite convertMatchesToCSV_snoc, !lineBreaks_app, length_app, IH.
  - rewrite csvRow_lineBreaks; [cbn; lia|].
    intros f Hf. apply (Hclean m f); [|exact Hf].
    apply in_or_app. right. left. reflexivity.
  - intros m' f Hm' Hf. apply (Hclean m' f); [|exact Hf].
    apply in_or_app. left. exact Hm'.
Qed.

(** X19. The date and time cells split a timestamp of the shape
    [2024-01-04T09:00Z]: for a date of ten code units, one separator
    unit, a time of five units and any suffix, the date cell is the date
    and the time cell is the time. *)
Theorem timestamp_cells (date time suffix : Matches.Utf16) (separator : nat) :
  List.length date = 10%nat ->
  List.length time = 5%nat ->
  Matches.dateCell (date ++ separator :: time ++ suffix) = date /\
  Matches.timeCell (date ++ separator :: time ++ suffix) = time.
Proof.
  intros Hd Ht. unfold Matches.dateCell, Matches.timeCell, Matches.jsSubstring. split.
  - cbn [skipn Nat.sub]. rewrite <- Hd, firstn_app, firstn_all, Nat.sub_diag.
    cbn [firstn]. apply app_nil_r.
  - replace (date ++ separator :: time ++ suffix)
      with ((date ++ [separator]) ++ time ++ suffix)
      by (rewrite <- app_assoc; reflexivity).
    rewrite skipn_app, skipn_all2 by (rewrite length_app, Hd; cbn; lia).
    rewrite length_app, Hd. cbn [List.length Nat.add Nat.sub skipn app].
    rewrite <- Ht, firstn_app, firstn_all, Nat.sub_diag.
    cbn [firstn]. apply app_nil_r.
Qed.

(** * Instances of the further properties *)

Lemma refreshing_reachable :
  reachable Sample.parseDate Sample.observed Sample.refreshing.
Proof.
  apply (run_reachable Sample.parseDate Sample.observed
           [(0, Mount); (1, CallLogin Sample.credentials);
            (2, LoginResponse 0 (Ok (Sample.payloadOf Sample.nearTokens)));
            (200000, UserResponse 0 (Ok Sample.alicePayload))] initialState).
  - apply reachable_first_render.
  - vm_compute. reflexivity.
Qed.

Lemma resolved_values_stay_resolved_witness :
  reachable Sample.parseDate (Sample.observedWith Sample.soonTokens) Sample.armed /\
  step Sample.parseDate (Sample.observedWith Sample.soonTokens) 6 CallLogout Sample.armed
    = Some Scenario.armedLoggedOut /\
  tokens Scenario.armedLoggedOut <> Undefined /\
  currentUser Scenario.armedLoggedOut <> Undefined.
Proof.
  split; [exact armed_reachable|].
  assert (Hstep : step Sample.parseDate (Sample.observedWith Sample.soonTokens) 6
                    CallLogout Sample.armed = Some Scenario.armedLoggedOut)
    by (vm_compute; reflexivity).
  split; [exact Hstep|].
  destruct (resolved_values_stay_resolved Sample.parseDate
              (Sample.observedWith Sample.soonTokens) 6 CallLogout Sample.armed
              Scenario.armedLoggedOut armed_reachable Hstep) as [Ht Hu].
  split; [apply Ht | apply Hu]; discriminate.
Defined.

Lemma pending_timers_are_sound_witness :
  timers Sample.armed = [mkTimer 1 0 300000 (Val Sample.soonTokens)] /\
  timerSound Sample.parseDate (mkTimer 1 0 300000 (Val Sample.soonTokens)).
Proof.
  split; [reflexivity|].
  apply (pending_timers_are_sound Sample.parseDate
           (Sample.observedWith Sample.soonTokens) Sample.armed).
  - exact armed_reachable.
  - left. reflexivity.
Defined.

Lemma pending_timer_is_for_exposed_tokens_witness :
  In (mkTimer 1 0 300000 (Val Sample.soonTokens)) (timers Scenario.armedLoggedOut) /\
  (timerTokens (mkTimer 1 0 300000 (Val Sample.soonTokens)) = tokens Scenario.armedLoggedOut \/
   tokens Scenario.armedLoggedOut = Null).
Proof.
  assert (Hin : In (mkTimer 1 0 300000 (Val Sample.soonTokens))
                  (timers Scenario.armedLoggedOut)) by (left; reflexivity).
  split; [exact Hin|].
  apply (pending_timer_is_for_exposed_tokens Sample.parseDate
           (Sample.observedWith Sample.soonTokens)); [|exact Hin].
  apply (reachable_step _ _ Sample.armed Scenario.armedLoggedOut 6 CallLogout).
  - exact armed_reachable.
  - vm_compute. reflexivity.
Defined.

Lemma refresh_requests_carry_a_token_witness :
  In (PostRefresh "refresh-3") (requests Sample.refreshing) /\ "refresh-3" <> "".
Proof.
  assert (Hin : In (PostRefresh "refresh-3") (requests Sample.refreshing))
    by (cbn; tauto).
  split; [exact Hin|].
  exact (refresh_requests_carry_a_token Sample.parseDate Sample.observed
           Sample.refreshing "refresh-3" refreshing_reachable Hin).
Defined.

Lemma unmount_clears_pending_timer_witness :
  timers Sample.armed <> [] /\ timers (unmountCleanup Sample.armed) = [].
Proof.
  split; [discriminate|].
  apply (unmount_clears_pending_timer Sample.parseDate
           (Sample.observedWith Sample.soonTokens) Sample.armed armed_reachable).
Defined.

Lemma login_success_authenticates_witness :
  mounted Sample.loggedOut = true /\
  currentUser Sample.loggedOut = Null /\
  exists s',
    run Sample.parseDate Sample.observed
        [(1, CallLogin Sample.credentials);
         (2, LoginResponse 0 (Ok (Sample.payloadOf Sample.farTokens)));
         (3, UserResponse 0 (Ok Sample.alicePayload))] Sample.loggedOut = Some s' /\
    tokens s' = Val Sample.farTokens /\
    currentUser s' = Val Sample.alice /\
    authChanges s' = [Some Sample.farTokens].
Proof.
  split; [reflexivity|]. split; [reflexivity|].
  destruct (login_success_authenticates Sample.parseDate Sample.observed 1 2 3
              Sample.credentials (Sample.payloadOf Sample.farTokens)
              Sample.alicePayload Sample.loggedOut eq_refl eq_refl
              (conj eq_refl eq_refl))
    as [s' (Hrun & Ht & Hu & Ha & _)].
  exists s'. split; [exact Hrun|]. split; [exact Ht|]. split; [exact Hu | exact Ha].
Defined.

Lemma failed_login_clears_session_witness :
  inflight Scenario.loggingIn = [LoginAwaitResponse] /\
  exists s',
    step Sample.parseDate Sample.observed 2
         (LoginResponse 0 (NotOk "Invalid credentials")) Scenario.loggingIn = Some s' /\
    Unauthenticated s' /\
    requests s' = requests Scenario.loggingIn.
Proof.
  split; [reflexivity|].
  destruct (failed_login_clears_session Sample.parseDate Sample.observed 2 0
              Scenario.loggingIn (with_inflight [] Scenario.loggingIn))
    as [Hresponse _].
  destruct (Hresponse (NotOk "Invalid credentials") "Invalid credentials"
              eq_refl (or_introl eq_refl))
    as [_ [s' (Hstep & Hun & Hreq & _)]].
  exists s'. split; [exact Hstep|]. split; [exact Hun | exact Hreq].
Defined.

Lemma login_guard_witness :
  currentUser Sample.armed <> Null /\
  snd (callLogin Sample.parseDate 6 Sample.credentials Sample.armed)
    = Rejected "User is already logged in" /\
  requests (fst (callLogin Sample.parseDate 6 Sample.credentials Sample.armed))
    = requests Sample.armed.
Proof.
  assert (Hu : currentUser Sample.armed <> Null) by discriminate.
  split; [exact Hu|].
  destruct (login_guard Sample.parseDate 6 Sample.credentials Sample.armed
              (conj eq_refl eq_refl)) as [_ Hrej].
  destruct (Hrej Hu) as (Ho & _ & Hreq & _).
  split; [exact Ho | exact Hreq].
Defined.

Lemma cold_start_without_tokens_witness :
  initialTokens Sample.observed = NotProvided /\
  exists s',
    step Sample.parseDate Sample.observed 0 Mount initialState = Some s' /\
    Unauthenticated s' /\ requests s' = [].
Proof.
  split; [reflexivity|].
  destruct (cold_start_without_tokens Sample.parseDate Sample.observed 0 1)
    as [Habsent _].
  destruct (Habsent eq_refl) as [s' (Hstep & Hun & Hreq & _)].
  exists s'. split; [exact Hstep|]. split; [exact Hun | exact Hreq].
Defined.

Lemma cold_start_with_tokens_witness :
  resolvedInitialTokens (Sample.observedWith Sample.farTokens)
    = ResolvesTo (Some Sample.farTokens) /\
  exists s',
    run Sample.parseDate (Sample.observedWith Sample.farTokens)
        [(0, Mount); (0, InitialTokensResolve 0);
         (5, UserResponse 0 (Ok Sample.alicePayload))] initialState = Some s' /\
    tokens s' = Val Sample.farTokens /\ currentUser s' = Val Sample.alice.
Proof.
  split; [reflexivity|].
  assert (Hp : initialTokens (Sample.observedWith Sample.farTokens) <> NotProvided)
    by discriminate.
  destruct (cold_start_with_tokens Sample.parseDate
              (Sample.observedWith Sample.farTokens) 0 0 5 Sample.farTokens
              (Ok Sample.alicePayload) Hp eq_refl)
    as [s' (Hrun & Hsettled & _)].
  exists s'. split; [exact Hrun | exact Hsettled].
Defined.

Lemma refresh_success_replaces_tokens_witness :
  inflight Sample.refreshing = [RefreshAwaitResponse] /\
  exists s',
    step Sample.parseDate Sample.observed 200050
         (RefreshResponse 0 (Ok (Sample.payloadOf Sample.soonTokens)))
         Sample.refreshing = Some s' /\
    tokens s' = Val Sample.soonTokens /\
    currentUser s' = Val Sample.alice /\
    exists id, timers s' = [mkTimer id 200050 99950 (Val Sample.soonTokens)].
Proof.
  split; [reflexivity|].
  destruct (refresh_success_replaces_tokens Sample.parseDate Sample.observed 200050 0
              (Sample.payloadOf Sample.soonTokens) Sample.refreshing
              (with_inflight [] Sample.refreshing)
              (conj eq_refl eq_refl) (or_introl eq_refl) eq_refl)
    as [s' (Hstep & Ht & Hu & _ & _ & Harm)].
  exists s'. split; [exact Hstep|]. split; [exact Ht|]. split; [exact Hu|].
  destruct (Harm 99950 eq_refl) as [id [Htimers _]].
  exists id. exact Htimers.
Defined.

Lemma timer_fires_once_witness :
  findTimer 1 Sample.armed = Some (mkTimer 1 0 300000 (Val Sample.soonTokens)) /\
  exists s',
    step Sample.parseDate (Sample.observedWith Sample.soonTokens) 300000
         (TimerFires 1) Sample.armed = Some s' /\
    timers s' = [] /\
    requests s' = requests Sample.armed ++ [PostRefresh "refresh-2"].
Proof.
  split; [reflexivity|].
  assert (Hdue : armedAt (mkTimer 1 0 300000 (Val Sample.soonTokens))
                 + delay (mkTimer 1 0 300000 (Val Sample.soonTokens)) <= 300000)
    by (cbn; lia).
  destruct (timer_fires_once Sample.parseDate (Sample.observedWith Sample.soonTokens)
              300000 1 (mkTimer 1 0 300000 (Val Sample.soonTokens)) Sample.armed
              armed_reachable eq_refl Hdue)
    as [s' (Hstep & Htimers & _ & _ & _ & Hreq)].
  exists s'. split; [exact Hstep|]. split; [exact Htimers|].
  exact (proj1 Hreq).
Defined.

Lemma logout_leaves_timer_and_calls_witness :
  is_null (currentUser Sample.armed) = false /\
  timers (fst (callLogout Sample.parseDate Sample.observed 6 Sample.armed))
    = [mkTimer 1 0 300000 (Val Sample.soonTokens)] /\
  Unauthenticated (fst (callLogout Sample.parseDate Sample.observed 6 Sample.armed)).
Proof.
  split; [reflexivity|].
  destruct (logout_leaves_timer_and_calls Sample.parseDate Sample.observed 6
              Sample.armed eq_refl) as (_ & Hun & _ & _ & _ & Ht & _).
  split; [exact Ht | exact Hun].
Defined.

Lemma fetchAllMatches_reassembles_witness :
  Matches.fetchAllMatches 2 (Matches.paged Scenario.twelve)
    = Some (Matches.Returned Scenario.twelve) /\
  Matches.fetchAllMatches 1 (Matches.paged Scenario.twelve) = None.
Proof.
  destruct (fetchAllMatches_reassembles Scenario.twelve 2) as [Hdone _].
  destruct (fetchAllMatches_reassembles Scenario.twelve 1) as [_ Hmore].
  split; [apply Hdone | apply Hmore]; cbn; lia.
Defined.

Lemma fetchAllMatches_first_failure_witness :
  Scenario.secondPageRefused 1 = NotOk "Too many requests" /\
  Matches.fetchAllMatches 2 Scenario.secondPageRefused
    = Some (Matches.Thrown "Too many requests").
Proof.
  split; [reflexivity|].
  apply (fetchAllMatches_first_failure Scenario.secondPageRefused
           "Too many requests" 1 2).
  - intros j Hj. assert (j = 0%nat) as -> by lia.
    eexists. split; [reflexivity|]. vm_compute. lia.
  - left. reflexivity.
  - lia.
Defined.

Lemma fetchAllMatches_needs_a_short_page_witness :
  Matches.fetchAllMatches 50 Scenario.samePageAlways = None.
Proof.
  apply fetchAllMatches_needs_a_short_page.
  intros j. eexists. split; [reflexivity|]. vm_compute. lia.
Defined.

Lemma convertMatchesToCSV_line_count_witness :
  Matches.lineBreaks (Matches.convertMatchesToCSV Scenario.twelve) = 12%nat.
Proof.
  apply (convertMatchesToCSV_line_count Scenario.twelve).
  intros m f Hm Hf. cbn in Hm.
  repeat (destruct Hm as [<- | Hm];
          [cbn in Hf; repeat (destruct Hf as [<- | Hf]; [reflexivity|]); contradiction|]).
  contradiction.
Defined.

Lemma timestamp_cells_witness :
  Matches.dateCell (Matches.unitsOfAscii "2024-01-04T09:00Z")
    = Matches.unitsOfAscii "2024-01-04" /\
  Matches.timeCell (Matches.unitsOfAscii "2024-01-04T09:00Z")
    = Matches.unitsOfAscii "09:00".
Proof.
  exact (timestamp_cells (Matches.unitsOfAscii "2024-01-04")
           (Matches.unitsOfAscii "09:00") (Matches.unitsOfAscii "Z") 84
           eq_refl eq_refl).
Defined.
